(** * EDStS plugin: event delivery pipeline

    A shallow embedding of [load.py], [permissions.py] and
    [workers/fc_worker.py].  Python dictionaries are finite maps with string
    keys, the module-level singleton [this] and the [FCWorker] object it owns
    are one record that every operation takes and returns, and the two
    collaborators the code talks to (the [requests] transport and the
    [config] store) are explicit: the store is part of the state, the
    transport is an oracle and every call to it is logged.

    Characters are Unicode code points below 256, which is what [ascii]
    offers; [str.lower] and [str.strip] are written out for that range. *)

From Corelib Require Import PrimFloat.
From Stdlib Require Import ZArith Ascii String List Bool Lia.
From stdpp Require Import base option list gmap strings.

Open Scope Z_scope.
Open Scope string_scope.
Open Scope list_scope.

(** ** Python values *)

(** The [Any] of [Dict[str, Any]] and the results of [response.json()]:
    what JSON gives in Python, a number with a fraction or an exponent
    being a float. *)
#[warnings="-register-all"]
Inductive PyVal : Type :=
| VNone
| VBool (b : bool)
| VInt (z : Z)
| VFloat (f : float)
| VStr (s : string)
| VList (l : list PyVal)
| VDict (d : gmap string PyVal).

(** [bool(v)]: what [if v:] and [not v] test. *)
Definition truthy (v : PyVal) : bool :=
  match v with
  | VNone => false
  | VBool b => b
  | VInt z => negb (z =? 0)%Z
  | VFloat f => negb (PrimFloat.eqb f 0%float)
  | VStr s => negb (String.length s =? 0)%nat
  | VList l => negb (length l =? 0)%nat
  | VDict d => negb (size d =? 0)%nat
  end.

(** [d.get(k)], with [None] for a missing key. *)
Definition dict_get (d : gmap string PyVal) (k : string) : PyVal :=
  default VNone (d !! k).

(** ** Strings *)

Module PyStr.

(** [c.isspace()] for a code point below 256. *)
Definition isspace (c : ascii) : bool :=
  let n := nat_of_ascii c in
  ((9 <=? n) && (n <=? 13) || (28 <=? n) && (n <=? 32)
   || (n =? 133) || (n =? 160))%nat.

(** [c.lower()] for a code point below 256: the ASCII capitals and the
    Latin-1 capitals, the multiplication sign U+00D7 apart. *)
Definition lower_char (c : ascii) : ascii :=
  let n := nat_of_ascii c in
  if ((65 <=? n) && (n <=? 90)
      || (192 <=? n) && (n <=? 222) && negb (n =? 215))%nat
  then ascii_of_nat (n + 32) else c.

Fixpoint lower (s : string) : string :=
  match s with
  | EmptyString => EmptyString
  | String c r => String (lower_char c) (lower r)
  end.

Fixpoint lstrip (s : string) : string :=
  match s with
  | EmptyString => EmptyString
  | String c r => if isspace c then lstrip r else s
  end.

(** Drops the trailing white space: a character stays when something
    stays after it or when it is not white space itself. *)
Fixpoint rstrip (s : string) : string :=
  match s with
  | EmptyString => EmptyString
  | String c r =>
      match rstrip r with
      | EmptyString => if isspace c then EmptyString else String c EmptyString
      | r' => String c r'
      end
  end.

(** [s.strip()] *)
Definition strip (s : string) : string := rstrip (lstrip s).

(** [s.split(sep)] for a one-character separator: one more part than
    there are separators, so the empty string gives one empty part. *)
Fixpoint split (sep : ascii) (s : string) : list string :=
  match s with
  | EmptyString => [EmptyString]
  | String c r =>
      if Ascii.eqb c sep then EmptyString :: split sep r
      else match split sep r with
           | [] => [String c EmptyString]
           | p :: ps => String c p :: ps
           end
  end.

(** [sep.join(parts)] *)
Fixpoint join (sep : string) (parts : list string) : string :=
  match parts with
  | [] => EmptyString
  | [p] => p
  | p :: ps => (p ++ sep ++ join sep ps)%string
  end.

Definition nonempty (s : string) : bool := negb (String.length s =? 0)%nat.

Fixpoint contains (c : ascii) (s : string) : bool :=
  match s with
  | EmptyString => false
  | String d r => Ascii.eqb d c || contains c r
  end.

Definition first (s : string) : option ascii :=
  match s with EmptyString => None | String c _ => Some c end.

Fixpoint last (s : string) : option ascii :=
  match s with
  | EmptyString => None
  | String c EmptyString => Some c
  | String _ r => last r
  end.

End PyStr.

(** ** The configuration store *)

(** [config.get_str(key)] gives a string or [None]; the store is a finite
    map from the names of the settings to their strings. *)
Definition get_str (config : gmap string string) (key : string)
  : option string := config !! key.

(** Truth value of an optional string: [None] and [""] are false. *)
Definition str_truthy (o : option string) : bool :=
  match o with
  | Some s => PyStr.nonempty s
  | None => false
  end.

(** ** permissions.py *)

Definition comma : ascii := ","%char.

(** The generator of [get_permissions_header]:
    [p.strip() for p in user_perm.split(",") if p.strip()]. *)
Definition permission_tags (user_perm : string) : list string :=
  filter (fun p => Is_true (PyStr.nonempty p))
         (PyStr.strip <$> PyStr.split comma user_perm).

Definition get_permissions_header (config : gmap string string) : string :=
  let user_perm := get_str config "edsts_user_permissions" in
  if str_truthy user_perm then
    let perms := PyStr.join "," (permission_tags (default "" user_perm)) in
    ("EDStS," ++ perms)%string
  else "EDStS".

(** ** The transport *)

(** One call of [requests.get] or [requests.post], as the code makes it. *)
Record NetCall := {
  method : string;
  url : string;
  params : list (string * string);
  headers : list (string * string);
  json : option (gmap string PyVal);
  timeout : Z
}.

(** What comes back: a response with its status code and what
    [response.json()] gives ([None] when it raises on a malformed body), or
    an exception of [requests] (no connection, timeout). *)
Inductive HttpReply :=
| Reply (status_code : Z) (body : option PyVal)
| Failure.

(** The transport is an oracle: it answers a call made at a given moment
    (the number of effects that happened before it). *)
Definition Transport := nat -> NetCall -> HttpReply.

(** What a run does to the outside, in order. *)
Inductive Effect :=
| ESend (c : NetCall)
| ESleep (secs : Z)
| EGet (item : option (gmap string PyVal))
| EEmpty (secs : Z)
| EGetFC (item : option (gmap string PyVal * gmap string PyVal)).

Definition is_send (e : Effect) : bool :=
  match e with ESend _ => true | _ => false end.

Definition is_sleep (e : Effect) : bool :=
  match e with ESleep _ => true | _ => false end.

(** Number of transport calls in a trace. *)
Definition sends (tr : list Effect) : nat :=
  length (List.filter is_send tr).

(** ** State *)

Definition REGISTER_USER_URL := "https://edsts.7thseraph.org/api/auth/register".
Definition API_BASE := "https://edsts.7thseraph.org".
Definition CHECK_INTERVAL : Z := 600.
Definition JOURNAL_ENDPOINT := (API_BASE ++ "/api/journal/event")%string.

Inductive TimerStatus := Pending | Cancelled | Fired.

(** A [threading.Timer] that was started. *)
Record Timer := {
  interval : Z;
  daemon : bool;
  status : TimerStatus
}.

(** [class FCWorker] *)
Record FCWorker := {
  fc_api_base : string;
  fc_journal_endpoint : string;
  fc_queue : list (option (gmap string PyVal * gmap string PyVal));
  fc_worker_thread : bool;
  fc_shutting_down : bool
}.

(** [this.connection_state] *)
Record ConnectionState := {
  is_connected : PyVal;
  last_activity_check : option Z
}.

(** [class EDStSState]; [verification_timer] refers to a timer of the
    world by its index, [status_label] holds the text of the label. *)
Record EDStSState := {
  status_label : option string;
  verification_timer : option nat;
  event_queue : list (option (gmap string PyVal));
  connection_state : ConnectionState;
  worker_thread : bool;
  shutting_down : bool;
  fc_worker : FCWorker
}.

(** The singleton [this], the configuration store, the timers created so
    far and the trace of effects. *)
Record World := {
  this : EDStSState;
  config : gmap string string;
  timers : list Timer;
  trace : list Effect
}.

Definition FCWorker_init (api_base journal_endpoint : string) : FCWorker :=
  {| fc_api_base := api_base; fc_journal_endpoint := journal_endpoint;
     fc_queue := []; fc_worker_thread := false; fc_shutting_down := false |}.

Definition EDStSState_init : EDStSState :=
  {| status_label := None; verification_timer := None; event_queue := [];
     connection_state :=
       {| is_connected := VBool false; last_activity_check := None |};
     worker_thread := false; shutting_down := false;
     fc_worker := FCWorker_init API_BASE JOURNAL_ENDPOINT |}.

Definition World_init (cfg : gmap string string) : World :=
  {| this := EDStSState_init; config := cfg; timers := []; trace := [] |}.

(** *** Assignments *)

Definition with_this (f : EDStSState -> EDStSState) (w : World) : World :=
  {| this := f (this w); config := config w; timers := timers w;
     trace := trace w |}.

Definition with_config (f : gmap string string -> gmap string string)
  (w : World) : World :=
  {| this := this w; config := f (config w); timers := timers w;
     trace := trace w |}.

Definition with_timers (f : list Timer -> list Timer) (w : World) : World :=
  {| this := this w; config := config w; timers := f (timers w);
     trace := trace w |}.

Definition emit (e : Effect) (w : World) : World :=
  {| this := this w; config := config w; timers := timers w;
     trace := trace w ++ [e] |}.

Definition set_is_connected (v : PyVal) (s : EDStSState) : EDStSState :=
  {| status_label := status_label s;
     verification_timer := verification_timer s;
     event_queue := event_queue s;
     connection_state :=
       {| is_connected := v;
          last_activity_check := last_activity_check (connection_state s) |};
     worker_thread := worker_thread s; shutting_down := shutting_down s;
     fc_worker := fc_worker s |}.

Definition set_status_label (l : option string) (s : EDStSState)
  : EDStSState :=
  {| status_label := l; verification_timer := verification_timer s;
     event_queue := event_queue s; connection_state := connection_state s;
     worker_thread := worker_thread s; shutting_down := shutting_down s;
     fc_worker := fc_worker s |}.

Definition set_verification_timer (t : option nat) (s : EDStSState)
  : EDStSState :=
  {| status_label := status_label s; verification_timer := t;
     event_queue := event_queue s; connection_state := connection_state s;
     worker_thread := worker_thread s; shutting_down := shutting_down s;
     fc_worker := fc_worker s |}.

Definition set_event_queue (q : list (option (gmap string PyVal)))
  (s : EDStSState) : EDStSState :=
  {| status_label := status_label s;
     verification_timer := verification_timer s;
     event_queue := q; connection_state := connection_state s;
     worker_thread := worker_thread s; shutting_down := shutting_down s;
     fc_worker := fc_worker s |}.

Definition set_worker_thread (b : bool) (s : EDStSState) : EDStSState :=
  {| status_label := status_label s;
     verification_timer := verification_timer s;
     event_queue := event_queue s; connection_state := connection_state s;
     worker_thread := b; shutting_down := shutting_down s;
     fc_worker := fc_worker s |}.

Definition set_shutting_down (b : bool) (s : EDStSState) : EDStSState :=
  {| status_label := status_label s;
     verification_timer := verification_timer s;
     event_queue := event_queue s; connection_state := connection_state s;
     worker_thread := worker_thread s; shutting_down := b;
     fc_worker := fc_worker s |}.

Definition with_fc_worker (f : FCWorker -> FCWorker) (s : EDStSState)
  : EDStSState :=
  {| status_label := status_label s;
     verification_timer := verification_timer s;
     event_queue := event_queue s; connection_state := connection_state s;
     worker_thread := worker_thread s; shutting_down := shutting_down s;
     fc_worker := f (fc_worker s) |}.

Definition set_fc_queue
  (q : list (option (gmap string PyVal * gmap string PyVal)))
  (f : FCWorker) : FCWorker :=
  {| fc_api_base := fc_api_base f;
     fc_journal_endpoint := fc_journal_endpoint f; fc_queue := q;
     fc_worker_thread := fc_worker_thread f;
     fc_shutting_down := fc_shutting_down f |}.

Definition set_fc_worker_thread (b : bool) (f : FCWorker) : FCWorker :=
  {| fc_api_base := fc_api_base f;
     fc_journal_endpoint := fc_journal_endpoint f; fc_queue := fc_queue f;
     fc_worker_thread := b; fc_shutting_down := fc_shutting_down f |}.

Definition set_fc_shutting_down (b : bool) (f : FCWorker) : FCWorker :=
  {| fc_api_base := fc_api_base f;
     fc_journal_endpoint := fc_journal_endpoint f; fc_queue := fc_queue f;
     fc_worker_thread := fc_worker_thread f; fc_shutting_down := b |}.

(** Reads used throughout. *)
Definition connected (w : World) : PyVal :=
  is_connected (connection_state (this w)).

Definition the_fc_queue (w : World)
  : list (option (gmap string PyVal * gmap string PyVal)) :=
  fc_queue (fc_worker (this w)).

(** A function either returns or raises. *)
Inductive Res (A : Type) :=
| Ok (a : A)
| Exn (name : string).
Arguments Ok {A} a.
Arguments Exn {A} name.

(** ** workers/fc_worker.py *)

(** Fleet Carrier related events we care about. *)
Definition FC_EVENTS : gset string :=
  list_to_set
    [ "CarrierJump"; "CarrierBuy"; "CarrierStats";
      "CarrierDockingPermission"; "CarrierCrewServices"; "CarrierFinance";
      "CarrierTradeOrder"; "CarrierDepositFuel";
      "Docked"; "Undocked"; "MarketBuy"; "MarketSell"; "StoredShips";
      "ShipyardBuy"; "ModuleBuy"; "ModuleSell" ].

Inductive LoopStatus := Running | Stopped | Blocked.

Module FC.

(** [start]: the thread is created as a daemon and started. *)
Definition start (w : World) : World :=
  with_this (with_fc_worker (set_fc_worker_thread true)) w.

(** [stop]: a [Queue] object is always true, so the sentinel is always
    put; the bounded [join] changes nothing here. *)
Definition stop (w : World) : World :=
  with_this (with_fc_worker (fun f =>
    set_fc_queue (fc_queue f ++ [None]) (set_fc_shutting_down true f))) w.

(** [event in FC_EVENTS]: hashing a list or a dict raises. *)
Definition should_handle_event (entry : gmap string PyVal) : Res bool :=
  match dict_get entry "event" with
  | VStr event => Ok (bool_decide (event ∈ FC_EVENTS))
  | VList _ | VDict _ => Exn "TypeError"
  | _ => Ok false
  end.

Definition process_event (entry state : gmap string PyVal) (w : World)
  : Res unit * World :=
  match should_handle_event entry with
  | Ok true =>
      (Ok tt, with_this (with_fc_worker (fun f =>
                set_fc_queue (fc_queue f ++ [Some (entry, state)]) f)) w)
  | Ok false => (Ok tt, w)
  | Exn e => (Exn e, w)
  end.

(** The two assignments that enrich the event. *)
Definition enrich (entry state : gmap string PyVal) : gmap string PyVal :=
  let entry :=
    if truthy (dict_get state "ShipID")
    then <["_shipId" := dict_get state "ShipID"]> entry else entry in
  if truthy (dict_get state "SystemAddress")
  then <["_systemAddress" := dict_get state "SystemAddress"]> entry
  else entry.

Definition post_of (endpoint api_key : string)
  (entry : gmap string PyVal) : NetCall :=
  {| method := "POST"; url := endpoint; params := [];
     headers := [ ("Content-Type", "application/json");
                  ("x-api-key", api_key);
                  ("x-permissions", "EDStS") ];
     json := Some entry; timeout := 10 |}.

(** [_handle_event] returns nothing; the first component is the
    [entry] dictionary as the call leaves it (it is updated in place).
    A 401, another status that is not 200 and an exception are logged,
    nothing else. *)
Definition _handle_event (net : Transport)
  (entry state : gmap string PyVal) (w : World)
  : gmap string PyVal * World :=
  let api_key := get_str (config w) "edsts_api_key" in
  if negb (str_truthy api_key) then (entry, w)
  else
    let entry := enrich entry state in
    let call := post_of (fc_journal_endpoint (fc_worker (this w)))
                        (default "" api_key) entry in
    let w1 := emit (ESend call) w in
    match net (length (trace w)) call with
    | Reply status_code _ =>
        if (status_code =? 401)%Z then (entry, w1)
        else if negb (status_code =? 200)%Z then (entry, w1)
        else (entry, w1)
    | Failure => (entry, w1)
    end.

(** One turn of the [while] of [_worker_loop].  [queue.get()] has no
    timeout: on an empty queue the thread waits for a producer.

    The queue of the code holds references, and [_handle_event] assigns
    into the entry it is given.  Here the queue holds the items as
    values, and the entry that [_handle_event] leaves is dropped: this
    is what the code does as long as no entry object is reachable from
    another item of the queue (see [unshared]).  An entry object that is
    queued twice is sent the second time with the fields of the first
    enrichment; that run is outside this definition. *)
Definition _worker_iter (net : Transport) (w : World)
  : LoopStatus * World :=
  if fc_shutting_down (fc_worker (this w)) then (Stopped, w)
  else
    match fc_queue (fc_worker (this w)) with
    | [] => (Blocked, w)
    | item :: q =>
        let w := emit (EGetFC item)
                   (with_this (with_fc_worker (set_fc_queue q)) w) in
        match item with
        | None => (Stopped, w)
        | Some (entry, state) =>
            (Running, snd (_handle_event net entry state w))
        end
    end.

Fixpoint _worker_loop (net : Transport) (fuel : nat) (w : World)
  : LoopStatus * World :=
  match fuel with
  | O => (Running, w)
  | S fuel =>
      match _worker_iter net w with
      | (Running, w) => _worker_loop net fuel w
      | r => r
      end
  end.

End FC.

(** ** load.py *)

(** The module reads a global [IMPORTANT_EVENTS] that it neither defines
    nor imports: the name is bound to nothing. *)
Definition IMPORTANT_EVENTS : option (gset string) := None.

(** [should_process_event]: reading a global that is not bound raises
    [NameError], before the membership test. *)
Definition should_process_event (event_name timestamp : string) : Res bool :=
  match IMPORTANT_EVENTS with
  | None => Exn "NameError"
  | Some events =>
      if negb (bool_decide (event_name ∈ events)) then Ok false
      else Ok true
  end.

Definition journal_post (api_key : string) (cfg : gmap string string)
  (event : gmap string PyVal) : NetCall :=
  {| method := "POST"; url := JOURNAL_ENDPOINT; params := [];
     headers := [ ("Content-Type", "application/json");
                  ("x-api-key", api_key);
                  ("x-permissions", get_permissions_header cfg) ];
     json := Some event; timeout := 10 |}.

Definition submit_journal_event (net : Transport)
  (event : gmap string PyVal) (w : World) : bool * World :=
  if negb (truthy (connected w)) then (false, w)
  else
    let api_key := get_str (config w) "edsts_api_key" in
    if negb (str_truthy api_key) then (false, w)
    else
      let call := journal_post (default "" api_key) (config w) event in
      let w1 := emit (ESend call) w in
      match net (length (trace w)) call with
      | Reply status_code _ =>
          if (status_code =? 401)%Z
          then (false, with_this (set_is_connected (VBool false)) w1)
          else if negb (status_code =? 200)%Z then (false, w1)
          else (true, w1)
      | Failure => (false, w1)
      end.

(** One turn of the [while] of [worker].  A [get] that times out raises
    [queue.Empty], which the handler of the loop answers with a sleep. *)
Definition worker_iter (net : Transport) (w : World) : LoopStatus * World :=
  if shutting_down (this w) then (Stopped, w)
  else
    match event_queue (this w) with
    | [] => (Running, emit (ESleep 5) (emit (EEmpty 5) w))
    | item :: q =>
        let w := emit (EGet item) (with_this (set_event_queue q) w) in
        match item with
        | None => (Stopped, w)
        | Some event =>
            let (success, w) := submit_journal_event net event w in
            if negb success then (Running, emit (ESleep 5) w)
            else (Running, w)
        end
    end.

Fixpoint worker (net : Transport) (fuel : nat) (w : World)
  : LoopStatus * World :=
  match fuel with
  | O => (Running, w)
  | S fuel =>
      match worker_iter net w with
      | (Running, w) => worker net fuel w
      | r => r
      end
  end.

Definition verify_call (api_key : string) : NetCall :=
  {| method := "GET"; url := (API_BASE ++ "/api/auth/verify")%string;
     params := [("key", api_key)]; headers := []; json := None;
     timeout := 5 |}.

(** [result.get("valid", False)] raises when the body is not an object;
    every exception ends in the handler, which stores and returns
    [False]. *)
Definition verify_api_key (net : Transport) (api_key : string) (w : World)
  : PyVal * World :=
  let call := verify_call api_key in
  let w1 := emit (ESend call) w in
  match net (length (trace w)) call with
  | Reply _ (Some (VDict result)) =>
      let is_valid := default (VBool false) (result !! "valid") in
      let is_valid :=
        match is_valid with
        | VStr s => VBool (String.eqb (PyStr.lower s) "true")
        | v => v
        end in
      (is_valid, with_this (set_is_connected is_valid) w1)
  | _ => (VBool false, with_this (set_is_connected (VBool false)) w1)
  end.

(** The texts of the status label, without the mark that ends them. *)
Definition CONNECTED_TEXT := "EDStS API: Connected".
Definition DISCONNECTED_TEXT := "EDStS API: Disconnected".

Definition update_status_label (net : Transport) (w : World) : World :=
  match status_label (this w) with
  | None => w
  | Some _ =>
      let api_key := get_str (config w) "edsts_api_key" in
      if negb (str_truthy api_key)
      then with_this (set_status_label (Some DISCONNECTED_TEXT)) w
      else
        let (is_valid, w) := verify_api_key net (default "" api_key) w in
        with_this (set_status_label
          (Some (if truthy is_valid then CONNECTED_TEXT
                 else DISCONNECTED_TEXT))) w
  end.

(** [Timer.cancel]: a timer that has not fired yet never will. *)
Definition Timer_cancel (t : Timer) : Timer :=
  match status t with
  | Pending => {| interval := interval t; daemon := daemon t;
                  status := Cancelled |}
  | _ => t
  end.

Definition schedule_verification (w : World) : World :=
  let w :=
    match verification_timer (this w) with
    | Some i => with_timers (alter Timer_cancel i) w
    | None => w
    end in
  let i := length (timers w) in
  with_this (set_verification_timer (Some i))
    (with_timers (fun ts => ts ++ [ {| interval := CHECK_INTERVAL;
                                       daemon := true;
                                       status := Pending |} ]) w).

Definition periodic_check (net : Transport) (w : World) : World :=
  schedule_verification (update_status_label net w).

(** The interval of timer [i] has passed: it runs [periodic_check] when
    it is still pending, and nothing when it was cancelled. *)
Definition timer_fire (net : Transport) (i : nat) (w : World) : World :=
  match timers w !! i with
  | Some t =>
      match status t with
      | Pending =>
          periodic_check net
            (with_timers (<[i := {| interval := interval t;
                                    daemon := daemon t;
                                    status := Fired |}]>) w)
      | _ => w
      end
  | None => w
  end.

Definition plugin_start3 (plugin_dir : string) (w : World) : string * World :=
  ("EDStS", FC.start (with_this (set_worker_thread true) w)).

Definition plugin_stop (w : World) : World :=
  let w := with_this (set_shutting_down true) w in
  let w := with_this (fun s => set_event_queue (event_queue s ++ [None]) s)
             w in
  FC.stop w.

(** The text shown next to the key entry is the first component. *)
Definition save_api_key (net : Transport) (api_key : string) (w : World)
  : string * World :=
  if negb (PyStr.nonempty api_key) then ("Please enter an API key", w)
  else
    let w := with_config (<["edsts_api_key" := api_key]>) w in
    let (ok, w) := verify_api_key net api_key w in
    (if truthy ok then "API Key verified and saved" else "Invalid API Key",
     update_status_label net w).

Definition clear_api_key (net : Transport) (w : World) : string * World :=
  ("API Key cleared",
   update_status_label net (with_config (delete "edsts_api_key") w)).

Definition save_user_permissions (permissions : string) (w : World)
  : string * World :=
  ("User permissions saved",
   with_config (<["edsts_user_permissions" := permissions]>) w).

Definition plugin_app (net : Transport) (w : World) : World :=
  let w := with_this (set_status_label (Some DISCONNECTED_TEXT)) w in
  schedule_verification (update_status_label net w).

Definition journal_entry (cmdr : string) (is_beta : bool)
  (system station : string) (entry state : gmap string PyVal) (w : World)
  : Res (option string) * World :=
  if negb (truthy (connected w)) then (Ok None, w)
  else
    match FC.process_event entry state w with
    | (Ok _, w) => (Ok None, w)
    | (Exn e, w) => (Exn e, w)
    end.

(** ** Runs *)

(** The calls that reach the plugin: the hooks of the host application,
    the callbacks of the preferences tab, a turn of either worker thread,
    the expiry of a timer, and the functions behind them called alone. *)
Inductive Op :=
| OJournalEntry (cmdr : string) (is_beta : bool) (system station : string)
    (entry state : gmap string PyVal)
| OWorkerIter
| OFCWorkerIter
| OTimerFire (i : nat)
| OPluginStart (plugin_dir : string)
| OPluginStop
| OPluginApp
| OSaveApiKey (api_key : string)
| OClearApiKey
| OSaveUserPermissions (permissions : string)
| OSubmit (event : gmap string PyVal)
| OHandleEvent (entry state : gmap string PyVal)
| OVerify (api_key : string)
| OUpdateStatusLabel
| OScheduleVerification.

Definition exec (net : Transport) (op : Op) (w : World) : World :=
  match op with
  | OJournalEntry cmdr is_beta system station entry state =>
      snd (journal_entry cmdr is_beta system station entry state w)
  | OWorkerIter => snd (worker_iter net w)
  | OFCWorkerIter => snd (FC._worker_iter net w)
  | OTimerFire i => timer_fire net i w
  | OPluginStart d => snd (plugin_start3 d w)
  | OPluginStop => plugin_stop w
  | OPluginApp => plugin_app net w
  | OSaveApiKey k => snd (save_api_key net k w)
  | OClearApiKey => snd (clear_api_key net w)
  | OSaveUserPermissions p => snd (save_user_permissions p w)
  | OSubmit event => snd (submit_journal_event net event w)
  | OHandleEvent entry state => snd (FC._handle_event net entry state w)
  | OVerify k => snd (verify_api_key net k w)
  | OUpdateStatusLabel => update_status_label net w
  | OScheduleVerification => schedule_verification w
  end.

Definition run (net : Transport) (ops : list Op) (w : World) : World :=
  fold_left (fun w op => exec net op w) ops w.

(** The operations that may call [verify_api_key]. *)
Definition verifies (op : Op) : bool :=
  match op with
  | OVerify _ | OUpdateStatusLabel | OTimerFire _ | OPluginApp
  | OSaveApiKey _ | OClearApiKey => true
  | _ => false
  end.

(** The operations the host application, the preferences tab, the two
    threads and the timer perform; the others are the functions behind
    them called alone. *)
Definition entry_point (op : Op) : bool :=
  match op with
  | OSubmit _ | OHandleEvent _ _ | OVerify _ | OUpdateStatusLabel
  | OScheduleVerification => false
  | _ => true
  end.

(** The operations that call [schedule_verification]. *)
Definition reschedules (op : Op) : bool :=
  match op with
  | OScheduleVerification | OPluginApp | OTimerFire _ => true
  | _ => false
  end.

(** Value of a header of a call. *)
Fixpoint header_of (hs : list (string * string)) (name : string)
  : option string :=
  match hs with
  | [] => None
  | (k, v) :: hs => if String.eqb k name then Some v else header_of hs name
  end.

Definition header (c : NetCall) (name : string) : option string :=
  header_of (headers c) name.

(** ** Words of the specification *)

(** The four letters of ["true"], each in either case. *)
Definition spells_true (s : string) : bool :=
  match s with
  | String a (String b (String c (String d EmptyString))) =>
      (Ascii.eqb a "t" || Ascii.eqb a "T")
      && (Ascii.eqb b "r" || Ascii.eqb b "R")
      && (Ascii.eqb c "u" || Ascii.eqb c "U")
      && (Ascii.eqb d "e" || Ascii.eqb d "E")
  | _ => false
  end.

(** The replies that the specification has [verify] accept. *)
Definition accepted (r : HttpReply) : Prop :=
  ∃ code result, r = Reply code (Some (VDict result)) ∧
    (result !! "valid" = Some (VBool true) ∨
     ∃ s, result !! "valid" = Some (VStr s) ∧ spells_true s = true).

(** The replies that the specification has [verify] refuse, the status
    code apart. *)
Definition refused (r : HttpReply) : Prop :=
  r = Failure ∨ (∃ code, r = Reply code None) ∨
  ∃ code result, r = Reply code (Some (VDict result)) ∧
    (result !! "valid" = None ∨ result !! "valid" = Some (VBool false) ∨
     result !! "valid" = Some (VStr "false")).

(** What becomes of a [valid] field: a string stands for the boolean of
    its spelling ["true"], every other value for itself. *)
Definition normalised (v : PyVal) : PyVal :=
  match v with
  | VStr s => VBool (spells_true s)
  | _ => v
  end.

(** The replies after which [verify] gives a value that is true: the
    body is an object and its [valid] is a spelling of ["true"] or a
    value, not a string, that is true in Python. *)
Definition accepted_value (r : HttpReply) : Prop :=
  ∃ code result v,
    r = Reply code (Some (VDict result)) ∧ result !! "valid" = Some v ∧
    match v with
    | VStr s => spells_true s = true
    | _ => truthy v = true
    end.

(** A tag as the permission header carries it: not empty, no white space
    at either end, no comma inside. *)
Definition trimmed_tag (t : string) : Prop :=
  t ≠ EmptyString ∧
  (∀ c, PyStr.first t = Some c → PyStr.isspace c = false) ∧
  (∀ c, PyStr.last t = Some c → PyStr.isspace c = false) ∧
  PyStr.contains comma t = false.

(** All characters of the string are white space. *)
Fixpoint all_space (s : string) : bool :=
  match s with
  | EmptyString => true
  | String c r => PyStr.isspace c && all_space r
  end.

(** [t] is [p] without the white space at its two ends. *)
Definition trim_of (p t : string) : Prop :=
  ∃ l r,
    p = (l ++ t ++ r)%string
    ∧ all_space l = true ∧ all_space r = true
    ∧ (∀ c, PyStr.first t = Some c → PyStr.isspace c = false)
    ∧ (∀ c, PyStr.last t = Some c → PyStr.isspace c = false).

(** The tags of a list of parts: every part trimmed, the blank ones left
    out, in the order of the parts. *)
Inductive tags_of : list string → list string → Prop :=
| tags_of_nil : tags_of [] []
| tags_of_blank (p : string) (parts tags : list string) :
    trim_of p EmptyString → tags_of parts tags → tags_of (p :: parts) tags
| tags_of_tag (p t : string) (parts tags : list string) :
    trim_of p t → t ≠ EmptyString → tags_of parts tags →
    tags_of (p :: parts) (t :: tags).

(** ** Example worlds and auxiliary predicates *)

(** Concrete worlds and transports used by the examples below. *)
Definition cfg_key : gmap string string := {[ "edsts_api_key" := "k" ]}.

Definition cfg_perms : gmap string string :=
  {[ "edsts_api_key" := "k";
     "edsts_user_permissions" := " admin , fc ,, x " ]}.

Definition reply_valid (code : Z) (v : PyVal) : HttpReply :=
  Reply code (Some (VDict {[ "valid" := v ]})).

Definition net_const (r : HttpReply) : Transport := fun _ _ => r.

Definition docked : gmap string PyVal :=
  {[ "event" := VStr "Docked"; "StarSystem" := VStr "Sol" ]}.

Definition aux : gmap string PyVal :=
  {[ "ShipID" := VInt 2; "SystemAddress" := VInt 3 ]}.

(** The world after the key was verified once: connected. *)
Definition connected_world (cfg : gmap string string) : World :=
  with_this (set_is_connected (VBool true)) (World_init cfg).

(** What a fail-closed [verify] would do with a status outside
    200..299. *)
Definition refuses_bad_status (net : Transport) (api_key : string)
  (w : World) : Prop :=
  ∀ code body,
    net (length (trace w)) (verify_call api_key) = Reply code body →
    (code < 200 ∨ 300 <= code) →
    fst (verify_api_key net api_key w) = VBool false.

Definition docked_with_ship : gmap string PyVal :=
  {[ "event" := VStr "Docked"; "_shipId" := VInt 1 ]}.

(** An effect that the fleet-carrier pipeline and the verification can
    cause: no event taken from the general queue, and no POST with a
    permission header other than the bare literal. *)
Definition fc_only (e : Effect) : Prop :=
  match e with
  | ESend c => method c = "POST" → header c "x-permissions" = Some "EDStS"
  | EGet (Some _) => False
  | _ => True
  end.

(** The general queue holds nothing but stop markers, and the general
    submission path has left no mark in the trace. *)
Definition general_unused (w : World) : Prop :=
  Forall (fun item => item = None) (event_queue (this w))
  ∧ Forall fc_only (trace w).

(** The plugin is started, its label is made (which verifies the key), an
    event comes in, each worker takes a turn, the plugin is stopped. *)
Definition sample_run : list Op :=
  [ OPluginStart "dir"; OPluginApp;
    OJournalEntry "cmdr" false "Sol" "" docked aux;
    OFCWorkerIter; OWorkerIter; OPluginStop ].

(** A fleet-carrier event waits in the queue of its worker. *)
Definition queued_world : World :=
  snd (FC.process_event docked aux (connected_world cfg_key)).

(** The value that [verify_api_key] makes of a reply. *)
Definition verdict (r : HttpReply) : PyVal :=
  match r with
  | Reply _ (Some (VDict result)) =>
      let is_valid := default (VBool false) (result !! "valid") in
      match is_valid with
      | VStr s => VBool (String.eqb (PyStr.lower s) "true")
      | v => v
      end
  | _ => VBool false
  end.

(** From moment [n] on the transport answers no verification with a
    true verdict. *)
Definition no_verify_succeeds (net : Transport) (n : nat) : Prop :=
  ∀ m api_key, (n ≤ m)%nat →
    truthy (verdict (net m (verify_call api_key))) = false.

(** The connection state reads false and the run is at moment [n] or
    later. *)
Definition disconnected_since (n : nat) (w : World) : Prop :=
  truthy (connected w) = false ∧ (n ≤ length (trace w))%nat.

(** ** Further functions of load.py *)

(** [check_api_activity]: the request of the verification, judged by its
    status alone; nothing is stored. *)
Definition check_api_activity (net : Transport) (w : World) : bool * World :=
  let api_key := get_str (config w) "edsts_api_key" in
  if negb (str_truthy api_key) then (false, w)
  else
    let call := verify_call (default "" api_key) in
    let w1 := emit (ESend call) w in
    match net (length (trace w)) call with
    | Reply status_code _ => ((status_code =? 200)%Z, w1)
    | Failure => (false, w1)
    end.

(** ** Further auxiliary predicates *)






(** At most one timer is pending, the one [verification_timer] refers
    to, and that reference is to a timer that exists. *)
Definition single_timer (w : World) : Prop :=
  (∀ j t, timers w !! j = Some t → status t = Pending →
          verification_timer (this w) = Some j)
  ∧ (∀ i, verification_timer (this w) = Some i →
          (i < length (timers w))%nat).

(** Two worlds with the same timers and the same reference to the
    verification timer. *)
Definition same_timers (w w' : World) : Prop :=
  timers w' = timers w
  ∧ verification_timer (this w') = verification_timer (this w).

(** Two worlds with the same configuration store. *)
Definition same_config (w w' : World) : Prop := config w' = config w.

(** What an idle general worker does in [n] turns: each time its [get]
    times out after 5 and the handler sleeps 5. *)
Definition idle_turns (n : nat) : list Effect :=
  concat (replicate n [EEmpty 5; ESleep 5]).

(** The events of a list come in one after the other. *)
Definition ingest (cmdr : string) (is_beta : bool) (system station : string)
  (items : list (gmap string PyVal * gmap string PyVal)) (w : World)
  : World :=
  fold_left (fun w item =>
               snd (journal_entry cmdr is_beta system station
                      (fst item) (snd item) w)) items w.

(** The filter of the fleet-carrier worker accepts the entry. *)
Definition fc_accepts (item : gmap string PyVal * gmap string PyVal) : bool :=
  match FC.should_handle_event (fst item) with
  | Ok b => b
  | Exn _ => false
  end.

(** * Properties *)

(** ** Strings *)

Section Strings.

Import PyStr.

Lemma lstrip_first s c : first (lstrip s) = Some c → isspace c = false.
Proof.
  induction s as [|a r IH]; simpl; [discriminate|].
  destruct (isspace a) eqn:Ha; [exact IH|].
  simpl. intros [= <-]. exact Ha.
Qed.

Lemma rstrip_last s c : last (rstrip s) = Some c → isspace c = false.
Proof.
  induction s as [|a r IH]; simpl; [discriminate|].
  destruct (rstrip r) as [|b r'] eqn:Hr.
  - destruct (isspace a) eqn:Ha; simpl; [discriminate|].
    intros [= <-]. exact Ha.
  - exact IH.
Qed.

Lemma rstrip_first s c :
  first s = Some c → isspace c = false → first (rstrip s) = Some c.
Proof.
  destruct s as [|a r]; simpl; [discriminate|].
  intros [= ->] Hc. destruct (rstrip r); [rewrite Hc|]; reflexivity.
Qed.

Lemma strip_first s c : first (strip s) = Some c → isspace c = false.
Proof.
  unfold strip. intros H.
  destruct (lstrip s) as [|a r] eqn:Hl; [discriminate|].
  assert (Ha : isspace a = false) by (apply (lstrip_first s); by rewrite Hl).
  rewrite (rstrip_first (String a r) a eq_refl Ha) in H.
  by injection H as <-.
Qed.

Lemma strip_last s c : last (strip s) = Some c → isspace c = false.
Proof. apply rstrip_last. Qed.

Lemma lstrip_contains x s :
  contains x (lstrip s) = true → contains x s = true.
Proof.
  induction s as [|a r IH]; simpl; [done|].
  destruct (isspace a); simpl; [|done].
  intros H. rewrite (IH H). apply orb_true_r.
Qed.

Lemma rstrip_contains x s :
  contains x (rstrip s) = true → contains x s = true.
Proof.
  induction s as [|a r IH]; simpl; [done|].
  destruct (rstrip r) as [|b r'] eqn:Hr.
  - destruct (isspace a); simpl; [done|].
    rewrite orb_false_r. intros ->. reflexivity.
  - change (contains x (String a (String b r')) = true
            → Ascii.eqb a x || contains x r = true).
    simpl. destruct (Ascii.eqb a x); [done|]. exact IH.
Qed.

Lemma strip_contains x s :
  contains x s = false → contains x (strip s) = false.
Proof.
  intros H. destruct (contains x (strip s)) eqn:E; [|done].
  apply rstrip_contains, lstrip_contains in E. congruence.
Qed.

Lemma split_nonnil sep s : split sep s ≠ [].
Proof.
  destruct s as [|a r]; simpl; [done|].
  destruct (Ascii.eqb a sep); [done|]. by destruct (split sep r).
Qed.

(** No part of a split holds the separator. *)
Lemma split_contains sep s :
  Forall (fun p => contains sep p = false) (split sep s).
Proof.
  induction s as [|a r IH]; simpl.
  - by constructor.
  - destruct (Ascii.eqb a sep) eqn:Ha.
    + by constructor.
    + destruct (split sep r) as [|p ps].
      { constructor; [simpl; by rewrite Ha | constructor]. }
      inversion IH; subst. constructor; [|done].
      simpl. by rewrite Ha.
Qed.

(** Joining the parts with the separator gives the string back. *)
Lemma join_split sep s :
  join (String sep EmptyString) (split sep s) = s.
Proof.
  induction s as [|a r IH]; [reflexivity|].
  simpl. destruct (Ascii.eqb a sep) eqn:Ha.
  - apply Ascii.eqb_eq in Ha as ->.
    pose proof (split_nonnil sep r).
    destruct (split sep r) as [|p ps]; [done|].
    change (String sep (join (String sep EmptyString) (p :: ps))
            = String sep r).
    by rewrite IH.
  - destruct (split sep r) as [|p ps] eqn:Hs.
    + by pose proof (split_nonnil sep r).
    + destruct ps as [|q qs]; simpl in *; by rewrite <- IH.
Qed.

End Strings.

(** ** Permission header *)

Lemma permission_tags_trimmed (user_perm : string) :
  Forall trimmed_tag (permission_tags user_perm).
Proof.
  apply Forall_forall. intros t Ht.
  apply list_elem_of_filter in Ht as [Hne Ht].
  apply list_elem_of_fmap in Ht as (p & -> & Hp).
  repeat split.
  - intros E. rewrite E in Hne. exact Hne.
  - apply strip_first.
  - apply strip_last.
  - apply strip_contains.
    pose proof (split_contains comma user_perm) as HF.
    rewrite Forall_forall in HF. by apply HF.
Qed.

Lemma submit_journal_event_trace (net : Transport)
  (event : gmap string PyVal) (w : World) :
  trace (snd (submit_journal_event net event w)) = trace w ∨
  ∃ api_key,
    get_str (config w) "edsts_api_key" = Some api_key ∧
    trace (snd (submit_journal_event net event w))
    = trace w ++ [ESend (journal_post api_key (config w) event)].
Proof.
  unfold submit_journal_event.
  destruct (truthy (connected w)); simpl; [|by left].
  destruct (get_str (config w) "edsts_api_key") as [k|] eqn:Hk; simpl;
    [|by left].
  destruct (PyStr.nonempty k); simpl; [|by left].
  right. exists k. split; [done|].
  destruct (net _ _) as [code body|]; [|done].
  destruct (code =? 401)%Z; [done|]. by destruct (code =? 200)%Z.
Qed.

Lemma handle_event_trace (net : Transport)
  (entry state : gmap string PyVal) (w : World) :
  trace (snd (FC._handle_event net entry state w)) = trace w ∨
  ∃ api_key,
    get_str (config w) "edsts_api_key" = Some api_key ∧
    trace (snd (FC._handle_event net entry state w))
    = trace w ++ [ESend (FC.post_of (fc_journal_endpoint (fc_worker (this w)))
                           api_key (FC.enrich entry state))].
Proof.
  unfold FC._handle_event.
  destruct (get_str (config w) "edsts_api_key") as [k|] eqn:Hk; simpl;
    [|by left].
  destruct (PyStr.nonempty k); simpl; [|by left].
  right. exists k. split; [done|].
  destruct (net _ _) as [code body|]; [|done].
  destruct (code =? 401)%Z; [done|]. by destruct (code =? 200)%Z.
Qed.

Lemma split_app_sep (sep : ascii) (p s : string) :
  PyStr.contains sep p = false →
  PyStr.split sep (p ++ String sep s)%string = p :: PyStr.split sep s.
Proof.
  induction p as [|c p IH]; simpl.
  - intros _. by rewrite Ascii.eqb_refl.
  - intros [Hc Hp]%orb_false_iff. rewrite Hc, (IH Hp). done.
Qed.

Lemma split_no_sep (sep : ascii) (p : string) :
  PyStr.contains sep p = false → PyStr.split sep p = [p].
Proof.
  induction p as [|c p IH]; simpl; [done|].
  intros [Hc Hp]%orb_false_iff. by rewrite Hc, (IH Hp).
Qed.

(** Splitting what was joined gives the parts back, when there is a
    part and no part holds the separator. *)
Lemma split_join (sep : ascii) (l : list string) :
  l ≠ [] →
  Forall (fun p => PyStr.contains sep p = false) l →
  PyStr.split sep (PyStr.join (String sep EmptyString) l) = l.
Proof.
  induction l as [|p [|q r] IH]; intros Hne HF; [done| |].
  - inversion HF; subst. by apply split_no_sep.
  - inversion HF as [|? ? Hp HF']; subst.
    change (PyStr.join (String sep EmptyString) (p :: q :: r))
      with (p ++ String sep
                   (PyStr.join (String sep EmptyString) (q :: r)))%string.
    rewrite split_app_sep by done. by rewrite IH.
Qed.

Lemma permission_tags_no_comma (user_perm : string) :
  Forall (fun p => PyStr.contains comma p = false)
         (permission_tags user_perm).
Proof.
  eapply Forall_impl; [apply permission_tags_trimmed|].
  by intros t (_ & _ & _ & H).
Qed.

Lemma lstrip_decompose (s : string) :
  ∃ l, s = (l ++ PyStr.lstrip s)%string ∧ all_space l = true.
Proof.
  induction s as [|c r (l & E & Hl)]; [by exists EmptyString|].
  simpl. destruct (PyStr.isspace c) eqn:Hc.
  - exists (String c l). split.
    + change (String c r = String c (l ++ PyStr.lstrip r)%string).
      by f_equal.
    + simpl. by rewrite Hc, Hl.
  - by exists EmptyString.
Qed.

Lemma rstrip_decompose (s : string) :
  ∃ r, s = (PyStr.rstrip s ++ r)%string ∧ all_space r = true.
Proof.
  induction s as [|c s (r & E & Hr)]; [by exists EmptyString|].
  simpl. destruct (PyStr.rstrip s) as [|d t] eqn:Ht.
  - simpl in E. subst s. destruct (PyStr.isspace c) eqn:Hc.
    + exists (String c r). simpl. by rewrite Hc, Hr.
    + by exists r.
  - exists r. split; [|done].
    change (String c s = String c (String d t ++ r)%string).
    by f_equal.
Qed.

(** [strip] takes away white space at the two ends and nothing else. *)
Lemma strip_trim_of (p : string) : trim_of p (PyStr.strip p).
Proof.
  destruct (lstrip_decompose p) as (l & El & Hl).
  destruct (rstrip_decompose (PyStr.lstrip p)) as (r & Er & Hr).
  exists l, r. repeat split; try done.
  - unfold PyStr.strip. by rewrite <- Er.
  - apply strip_first.
  - apply strip_last.
Qed.

(** The generator of [get_permissions_header] gives the tags of the
    parts. *)
Lemma permission_tags_of (parts : list string) :
  tags_of parts
    (filter (fun p => Is_true (PyStr.nonempty p)) (PyStr.strip <$> parts)).
Proof.
  induction parts as [|p parts IH]; [constructor|].
  rewrite fmap_cons, filter_cons.
  pose proof (strip_trim_of p) as Hp.
  destruct (decide (Is_true (PyStr.nonempty (PyStr.strip p)))) as [Hn | Hn].
  - apply tags_of_tag; [done| |done]. intros E. by rewrite E in Hn.
  - apply tags_of_blank; [|done].
    destruct (PyStr.strip p); [done|]. by destruct Hn.
Qed.

Lemma submit_sends_call (net : Transport) (event : gmap string PyVal)
  (w : World) (k : string) :
  truthy (connected w) = true →
  get_str (config w) "edsts_api_key" = Some k →
  PyStr.nonempty k = true →
  trace (snd (submit_journal_event net event w))
  = trace w ++ [ESend (journal_post k (config w) event)].
Proof.
  intros Hc Hk Hne. unfold submit_journal_event.
  rewrite Hc, Hk. simpl. rewrite Hne. simpl.
  destruct (net _ _) as [code body|]; [|done].
  destruct (code =? 401)%Z; [done|]. by destruct (code =? 200)%Z.
Qed.

Lemma handle_event_sends_call (net : Transport)
  (entry state : gmap string PyVal) (w : World) (k : string) :
  get_str (config w) "edsts_api_key" = Some k →
  PyStr.nonempty k = true →
  trace (snd (FC._handle_event net entry state w))
  = trace w
    ++ [ESend (FC.post_of (fc_journal_endpoint (fc_worker (this w))) k
                 (FC.enrich entry state))].
Proof.
  intros Hk Hne. unfold FC._handle_event.
  rewrite Hk. simpl. rewrite Hne. simpl.
  destruct (net _ _) as [code body|]; [|done].
  destruct (code =? 401)%Z; [done|]. by destruct (code =? 200)%Z.
Qed.

(** C8, as stated, fails: a configured string that is not empty but
    holds no tag, only blanks and commas, is taken as configured; no tag
    is joined and the header is the name space tag with a comma. *)
Lemma permission_header_without_tags :
  get_str {[ "edsts_user_permissions" := " , " ]} "edsts_user_permissions"
  = Some " , "
  ∧ permission_tags " , " = []
  ∧ get_permissions_header {[ "edsts_user_permissions" := " , " ]}
    = "EDStS,".
Proof. repeat split; vm_compute; reflexivity. Qed.

(** C8, amended. The header of the general profile is ["EDStS"] when
    the configured string is absent or empty; when the string holds a
    tag, the header is ["EDStS,"] followed by the tags joined with
    commas, and splits at its commas into the name space tag and these
    tags.  The tags are the parts of the string between its commas, each
    without the white space at its ends, the blank ones left out, in
    their order.  With the state connected and a key configured the
    general profile sends one call, and it carries this header; with a key
    configured the fleet-carrier profile sends one call, and it carries
    the bare ["EDStS"]; no call that either sends carries anything
    else.  A configured string that is not empty and holds no tag gives
    ["EDStS,"]. *)
Theorem permission_header_profiles (net : Transport)
  (event state : gmap string PyVal) (w : World) :
  (str_truthy (get_str (config w) "edsts_user_permissions") = false →
   get_permissions_header (config w) = "EDStS")
  ∧ (∀ user_perm,
       get_str (config w) "edsts_user_permissions" = Some user_perm →
       permission_tags user_perm ≠ [] →
       get_permissions_header (config w)
       = ("EDStS," ++ PyStr.join "," (permission_tags user_perm))%string
       ∧ PyStr.split comma (get_permissions_header (config w))
         = "EDStS" :: permission_tags user_perm)
  ∧ (∀ user_perm,
       PyStr.join "," (PyStr.split comma user_perm) = user_perm
       ∧ Forall (fun p => PyStr.contains comma p = false)
                (PyStr.split comma user_perm)
       ∧ tags_of (PyStr.split comma user_perm) (permission_tags user_perm)
       ∧ Forall trimmed_tag (permission_tags user_perm))
  ∧ (truthy (connected w) = true →
     ∀ k, get_str (config w) "edsts_api_key" = Some k →
          PyStr.nonempty k = true →
          ∃ c, trace (snd (submit_journal_event net event w))
               = trace w ++ [ESend c]
               ∧ header c "x-permissions"
                 = Some (get_permissions_header (config w)))
  ∧ (∀ k, get_str (config w) "edsts_api_key" = Some k →
          PyStr.nonempty k = true →
          ∃ c, trace (snd (FC._handle_event net event state w))
               = trace w ++ [ESend c]
               ∧ header c "x-permissions" = Some "EDStS")
  ∧ (∀ c, trace (snd (submit_journal_event net event w))
          = trace w ++ [ESend c] →
       header c "x-permissions"
       = Some (get_permissions_header (config w)))
  ∧ (∀ c, trace (snd (FC._handle_event net event state w))
          = trace w ++ [ESend c] →
       header c "x-permissions" = Some "EDStS")
  ∧ (∀ user_perm,
       get_str (config w) "edsts_user_permissions" = Some user_perm →
       user_perm ≠ EmptyString →
       permission_tags user_perm = [] →
       get_permissions_header (config w) = "EDStS,").
Proof.
  split; [|split; [|split; [|split; [|split; [|split; [|split]]]]]].
  8:{ intros up Hup Hne Ht. unfold get_permissions_header.
      rewrite Hup. destruct up as [|a r]; [done|].
      simpl. by rewrite Ht. }
  - intros H. unfold get_permissions_header. by rewrite H.
  - intros up Hup Htags.
    assert (E : get_permissions_header (config w)
                = ("EDStS," ++ PyStr.join "," (permission_tags up))%string).
    { unfold get_permissions_header. rewrite Hup.
      destruct up as [|a r]; [by destruct Htags|]. reflexivity. }
    split; [exact E|]. rewrite E.
    change (PyStr.split comma
              ("EDStS" ++ String comma
                            (PyStr.join "," (permission_tags up)))%string
            = "EDStS" :: permission_tags up).
    rewrite split_app_sep by reflexivity. f_equal.
    apply (split_join comma); [done|]. apply permission_tags_no_comma.
  - intros up. split; [apply (join_split comma)|].
    split; [apply split_contains|].
    split; [apply permission_tags_of|apply permission_tags_trimmed].
  - intros Hc k Hk Hne. eexists. split.
    + by apply submit_sends_call.
    + reflexivity.
  - intros k Hk Hne. eexists. split.
    + by apply handle_event_sends_call.
    + reflexivity.
  - intros c Hc.
    destruct (submit_journal_event_trace net event w) as [E | (k & _ & E)];
      rewrite E in Hc.
    + exfalso. apply (f_equal length) in Hc. rewrite length_app in Hc.
      simpl in Hc. lia.
    + apply app_inv_head in Hc. by injection Hc as <-.
  - intros c Hc.
    destruct (handle_event_trace net event state w) as [E | (k & _ & E)];
      rewrite E in Hc.
    + exfalso. apply (f_equal length) in Hc. rewrite length_app in Hc.
      simpl in Hc. lia.
    + apply app_inv_head in Hc. by injection Hc as <-.
Qed.

Lemma permission_header_profiles_witness :
  get_permissions_header cfg_perms = "EDStS,admin,fc,x"
  ∧ PyStr.split comma (get_permissions_header cfg_perms)
    = ["EDStS"; "admin"; "fc"; "x"]
  ∧ sends (trace (snd (submit_journal_event (net_const (Reply 200 None))
                         docked (connected_world cfg_perms)))) = 1%nat
  ∧ header (FC.post_of JOURNAL_ENDPOINT "k" (FC.enrich docked aux))
      "x-permissions" = Some "EDStS".
Proof.
  pose proof (permission_header_profiles (net_const (Reply 200 None))
                docked aux (connected_world cfg_perms))
    as (_ & H2 & _ & H4 & _ & _ & H7 & _).
  destruct (H2 " admin , fc ,, x " ltac:(vm_compute; reflexivity)
              ltac:(vm_compute; discriminate)) as [E1 E2].
  destruct (H4 eq_refl "k" ltac:(vm_compute; reflexivity) eq_refl)
    as (c & Ec & _).
  split; [etransitivity; [exact E1|]; vm_compute; reflexivity|].
  split; [etransitivity; [exact E2|]; vm_compute; reflexivity|].
  split; [rewrite Ec; vm_compute; reflexivity|].
  apply H7. vm_compute. reflexivity.
Defined.

(** When every part of the configured string is blank, the comma after
    the name space tag stays. *)
Example permission_header_blank :
  get_permissions_header {[ "edsts_user_permissions" := " , " ]} = "EDStS,".
Proof. vm_compute. reflexivity. Qed.

(** ** Verification *)

Lemma lower_t x :
  Ascii.eqb (PyStr.lower_char x) "t" = Ascii.eqb x "t" || Ascii.eqb x "T".
Proof. destruct x as [[] [] [] [] [] [] [] []]; reflexivity. Qed.

Lemma lower_r x :
  Ascii.eqb (PyStr.lower_char x) "r" = Ascii.eqb x "r" || Ascii.eqb x "R".
Proof. destruct x as [[] [] [] [] [] [] [] []]; reflexivity. Qed.

Lemma lower_u x :
  Ascii.eqb (PyStr.lower_char x) "u" = Ascii.eqb x "u" || Ascii.eqb x "U".
Proof. destruct x as [[] [] [] [] [] [] [] []]; reflexivity. Qed.

Lemma lower_e x :
  Ascii.eqb (PyStr.lower_char x) "e" = Ascii.eqb x "e" || Ascii.eqb x "E".
Proof. destruct x as [[] [] [] [] [] [] [] []]; reflexivity. Qed.

(** [s.lower() == "true"] holds exactly for the sixteen spellings. *)
Lemma lower_true_spells (s : string) :
  String.eqb (PyStr.lower s) "true" = spells_true s.
Proof.
  destruct s as [|a [|b [|c [|d [|e r]]]]]; try reflexivity.
  - simpl. destruct (Ascii.eqb (PyStr.lower_char a) "t"); reflexivity.
  - simpl. destruct (Ascii.eqb (PyStr.lower_char a) "t"); [|reflexivity].
    destruct (Ascii.eqb (PyStr.lower_char b) "r"); reflexivity.
  - simpl. destruct (Ascii.eqb (PyStr.lower_char a) "t"); [|reflexivity].
    destruct (Ascii.eqb (PyStr.lower_char b) "r"); [|reflexivity].
    destruct (Ascii.eqb (PyStr.lower_char c) "u"); reflexivity.
  - unfold spells_true. rewrite <- lower_t, <- lower_r, <- lower_u, <- lower_e.
    simpl.
    destruct (Ascii.eqb (PyStr.lower_char a) "t"); [|reflexivity].
    destruct (Ascii.eqb (PyStr.lower_char b) "r"); [|reflexivity].
    destruct (Ascii.eqb (PyStr.lower_char c) "u"); [|reflexivity].
    destruct (Ascii.eqb (PyStr.lower_char d) "e"); reflexivity.
  - simpl.
    destruct (Ascii.eqb (PyStr.lower_char a) "t"); [|reflexivity].
    destruct (Ascii.eqb (PyStr.lower_char b) "r"); [|reflexivity].
    destruct (Ascii.eqb (PyStr.lower_char c) "u"); [|reflexivity].
    destruct (Ascii.eqb (PyStr.lower_char d) "e"); reflexivity.
Qed.

(** C3, as stated, fails: a reply with status 500 whose body says
    [valid: true] is accepted, the status is never looked at. *)
Lemma verify_ignores_status :
  fst (verify_api_key (net_const (reply_valid 500 (VBool true))) "k"
         (World_init cfg_key)) = VBool true
  ∧ ¬ refuses_bad_status (net_const (reply_valid 500 (VBool true))) "k"
        (World_init cfg_key).
Proof.
  split; [reflexivity|].
  intros H. specialize (H 500 _ eq_refl ltac:(lia)).
  discriminate H.
Qed.

(** A number, a list or an object in [valid] is stored and returned as
    it is: [1] reads as connected, and so does [0.5]. *)
Example verify_returns_raw_value :
  fst (verify_api_key (net_const (reply_valid 200 (VInt 1))) "k"
         (World_init cfg_key)) = VInt 1
  ∧ truthy (connected
              (snd (verify_api_key (net_const (reply_valid 200 (VInt 1)))
                      "k" (World_init cfg_key)))) = true
  ∧ fst (verify_api_key (net_const (reply_valid 200 (VFloat 0.5))) "k"
           (World_init cfg_key)) = VFloat 0.5.
Proof. repeat split; vm_compute; reflexivity. Qed.

(** C3, amended. Whatever the status code, [verify_api_key] returns a
    true value exactly for a body that is an object whose [valid] is the
    boolean true, one of the spellings of ["true"], or a value that is
    no string and is true in Python, which it returns as it is: a string
    in [valid] gives the boolean of its spelling, any other value stands
    for itself.  It returns [False] for a failed transport, a malformed
    body, a body that is no object, a missing [valid], the boolean false
    and every string that does not spell ["true"]; it always returns. *)
Theorem verify_api_key_verdict (net : Transport) (api_key : string)
  (w : World) :
  let reply := net (length (trace w)) (verify_call api_key) in
  (truthy (fst (verify_api_key net api_key w)) = true
   ↔ accepted_value reply)
  ∧ (fst (verify_api_key net api_key w) = VBool true ↔ accepted reply)
  ∧ (∀ code result v,
       reply = Reply code (Some (VDict result)) →
       result !! "valid" = Some v →
       fst (verify_api_key net api_key w) = normalised v)
  ∧ (refused reply → fst (verify_api_key net api_key w) = VBool false)
  ∧ (∀ code body,
       reply = Reply code (Some body) → (∀ d, body ≠ VDict d) →
       fst (verify_api_key net api_key w) = VBool false)
  ∧ (∀ code code' body, reply = Reply code body →
       ∀ net', net' (length (trace w)) (verify_call api_key)
               = Reply code' body →
       fst (verify_api_key net' api_key w)
       = fst (verify_api_key net api_key w)).
Proof.
  intros reply.
  assert (Hobj : ∀ code result v,
             reply = Reply code (Some (VDict result)) →
             result !! "valid" = Some v →
             fst (verify_api_key net api_key w) = normalised v).
  { intros code result v E Hv. unfold verify_api_key. fold reply.
    rewrite E, Hv. simpl.
    destruct v; simpl; try reflexivity. by rewrite lower_true_spells. }
  assert (Hnone : ∀ code result,
             reply = Reply code (Some (VDict result)) →
             result !! "valid" = None →
             fst (verify_api_key net api_key w) = VBool false).
  { intros code result E Hv. unfold verify_api_key. fold reply.
    by rewrite E, Hv. }
  assert (Hrest : (∀ code result, reply ≠ Reply code (Some (VDict result))) →
                  fst (verify_api_key net api_key w) = VBool false).
  { intros H. unfold verify_api_key. fold reply.
    destruct reply as [code [[| | | | | |result]|]|]; try reflexivity.
    by destruct (H code result). }
  split; [|split; [|split; [|split; [|split]]]].
  - split.
    + intros Ht.
      destruct reply as [code [[| | | | | |result]|]|] eqn:E;
        try (rewrite Hrest in Ht by (intros ? ?; discriminate);
             discriminate Ht).
      destruct (result !! "valid") as [v|] eqn:Hv.
      * exists code, result, v. split; [done|]. split; [done|].
        rewrite (Hobj code result v eq_refl Hv) in Ht. by destruct v.
      * rewrite (Hnone code result eq_refl Hv) in Ht. discriminate Ht.
    + intros (code & result & v & E & Hv & Hacc).
      rewrite (Hobj code result v E Hv). destruct v; simpl; try done.
  - split.
    + intros Ht.
      destruct reply as [code [[| | | | | |result]|]|] eqn:E;
        try (rewrite Hrest in Ht by (intros ? ?; discriminate);
             discriminate Ht).
      destruct (result !! "valid") as [v|] eqn:Hv.
      * exists code, result. split; [done|].
        rewrite (Hobj code result v eq_refl Hv) in Ht.
        destruct v; simpl in Ht; try discriminate Ht.
        -- left. by injection Ht as ->.
        -- right. exists s. split; [done|]. by injection Ht.
      * rewrite (Hnone code result eq_refl Hv) in Ht. discriminate Ht.
    + intros (code & result & E & [H | (s & H & Hs)]);
        rewrite (Hobj code result _ E H); simpl; [done|by rewrite Hs].
  - exact Hobj.
  - intros [E | [(code & E) | (code & result & E & [H | [H | H]])]].
    + apply Hrest. intros ? ?. by rewrite E.
    + apply Hrest. intros ? ?. by rewrite E.
    + by apply (Hnone code result).
    + by rewrite (Hobj code result _ E H).
    + by rewrite (Hobj code result _ E H).
  - intros code body E Hb. apply Hrest. intros c r. rewrite E.
    intros [= _ ->]. by destruct (Hb r).
  - intros code code' body E net' E'. unfold verify_api_key. fold reply.
    rewrite E, E'. reflexivity.
Qed.

Lemma verify_api_key_verdict_witness :
  fst (verify_api_key (net_const (reply_valid 200 (VStr "TRUE"))) "k"
         (World_init cfg_key)) = VBool true
  ∧ fst (verify_api_key (net_const (reply_valid 200 (VStr "false"))) "k"
           (World_init cfg_key)) = VBool false.
Proof.
  split.
  - apply (proj1 (proj2 (verify_api_key_verdict _ "k"
                           (World_init cfg_key)))).
    exists 200, {[ "valid" := VStr "TRUE" ]}. split; [reflexivity|].
    right. exists "TRUE". split; reflexivity.
  - apply (proj1 (proj2 (proj2 (proj2 (verify_api_key_verdict _ "k"
                                         (World_init cfg_key)))))).
    right. right. exists 200, {[ "valid" := VStr "false" ]}.
    split; [reflexivity|]. right. right. reflexivity.
Defined.

(** C7, as stated, fails: [verify_api_key] stores no time; after a call
    [last_activity_check] is still [None]. *)
Lemma verify_writes_no_timestamp :
  connected (snd (verify_api_key (net_const (reply_valid 200 (VBool true)))
                    "k" (World_init cfg_key))) = VBool true
  ∧ last_activity_check
      (connection_state
         (this (snd (verify_api_key
                       (net_const (reply_valid 200 (VBool true))) "k"
                       (World_init cfg_key))))) = None.
Proof. split; reflexivity. Qed.

Lemma verify_api_key_connected (net : Transport) (api_key : string)
  (w : World) :
  connected (snd (verify_api_key net api_key w))
  = fst (verify_api_key net api_key w).
Proof.
  unfold verify_api_key.
  destruct (net _ _) as [code [[| | | | | |result]|]|]; reflexivity.
Qed.

(** C7, amended. Every call of [verify_api_key], whatever its outcome,
    writes the value it returns into [is_connected]; it leaves
    [last_activity_check] as it was. *)
Theorem verify_api_key_writes (net : Transport) (api_key : string)
  (w : World) :
  connected (snd (verify_api_key net api_key w))
  = fst (verify_api_key net api_key w)
  ∧ last_activity_check
      (connection_state (this (snd (verify_api_key net api_key w))))
    = last_activity_check (connection_state (this w)).
Proof.
  split; [apply verify_api_key_connected|].
  unfold verify_api_key.
  destruct (net _ _) as [code [[| | | | | |result]|]|]; reflexivity.
Qed.

(** ** Submission guards *)

(** C1, as stated, fails for the fleet-carrier profile: with the
    connection state disconnected and a key configured, [_handle_event]
    calls the transport once. *)
Lemma handle_event_ignores_connection :
  truthy (connected (World_init cfg_key)) = false
  ∧ sends (trace (World_init cfg_key)) = 0%nat
  ∧ sends (trace (snd (FC._handle_event (net_const (Reply 200 None))
                         docked aux (World_init cfg_key)))) = 1%nat.
Proof. repeat split; vm_compute; reflexivity. Qed.

(** C1, amended. When the connection state is disconnected or no
    non-empty key is configured, [submit_journal_event] returns [False]
    and changes nothing, so the transport is not called.  In the
    fleet-carrier profile the missing key alone stops [_handle_event]
    before the transport; the connection state is tested where the event
    comes in, and [journal_entry] then queues nothing. *)
Theorem submission_guards (net : Transport)
  (event state : gmap string PyVal) (w : World)
  (Hguard : truthy (connected w) = false
            ∨ str_truthy (get_str (config w) "edsts_api_key") = false) :
  submit_journal_event net event w = (false, w)
  ∧ (str_truthy (get_str (config w) "edsts_api_key") = false →
     FC._handle_event net event state w = (event, w))
  ∧ (truthy (connected w) = false →
     ∀ cmdr is_beta system station,
       journal_entry cmdr is_beta system station event state w
       = (Ok None, w)).
Proof.
  split; [|split].
  - unfold submit_journal_event.
    destruct (truthy (connected w)); simpl; [|reflexivity].
    destruct Hguard as [H | H]; [discriminate|]. by rewrite H.
  - intros H. unfold FC._handle_event. by rewrite H.
  - intros H cmdr is_beta system station. unfold journal_entry.
    by rewrite H.
Qed.

Lemma submission_guards_witness :
  submit_journal_event (net_const (Reply 200 None)) docked
    (World_init cfg_key) = (false, World_init cfg_key).
Proof.
  apply (submission_guards (net_const (Reply 200 None)) docked aux
           (World_init cfg_key)).
  left. reflexivity.
Defined.

(** ** Enrichment *)

(** C2, as stated, fails: a [_shipId] that the raw event already has is
    replaced by the ship of the auxiliary state. *)
Lemma enrichment_overwrites :
  docked_with_ship !! "_shipId" = Some (VInt 1)
  ∧ fst (FC._handle_event (net_const (Reply 200 None)) docked_with_ship aux
           (World_init cfg_key)) !! "_shipId" = Some (VInt 2).
Proof. split; vm_compute; reflexivity. Qed.

Lemma enrich_lookup (entry state : gmap string PyVal) (k : string) :
  FC.enrich entry state !! k
  = if decide (k = "_systemAddress")
    then (if truthy (dict_get state "SystemAddress")
          then Some (dict_get state "SystemAddress") else entry !! k)
    else if decide (k = "_shipId")
    then (if truthy (dict_get state "ShipID")
          then Some (dict_get state "ShipID") else entry !! k)
    else entry !! k.
Proof.
  unfold FC.enrich.
  destruct (truthy (dict_get state "SystemAddress")),
           (truthy (dict_get state "ShipID"));
    repeat case_decide; subst; simplify_map_eq; try done.
Qed.

(** C2, amended. With a key configured and an auxiliary state whose
    [ShipID] and [SystemAddress] are true values, the payload that is sent
    has [_shipId] and [_systemAddress] equal to them, also when the raw
    event had fields of these names; every other field of the raw event is
    sent as it was. *)
Theorem enrichment_sets_fields (net : Transport)
  (entry state : gmap string PyVal) (w : World) (api_key : string)
  (Hkey : get_str (config w) "edsts_api_key" = Some api_key)
  (Hne : PyStr.nonempty api_key = true)
  (Hship : truthy (dict_get state "ShipID") = true)
  (Haddr : truthy (dict_get state "SystemAddress") = true) :
  let payload := fst (FC._handle_event net entry state w) in
  payload !! "_shipId" = state !! "ShipID"
  ∧ payload !! "_systemAddress" = state !! "SystemAddress"
  ∧ (∀ k, k ≠ "_shipId" → k ≠ "_systemAddress" →
       payload !! k = entry !! k)
  ∧ ∃ c, trace (snd (FC._handle_event net entry state w))
         = trace w ++ [ESend c]
         ∧ json c = Some payload.
Proof.
  assert (Hp : fst (FC._handle_event net entry state w)
               = FC.enrich entry state).
  { unfold FC._handle_event. rewrite Hkey. simpl. rewrite Hne. simpl.
    destruct (net _ _) as [code body|]; [|done].
    destruct (code =? 401)%Z; [done|]. by destruct (code =? 200)%Z. }
  simpl. rewrite Hp. repeat split.
  - rewrite enrich_lookup, Hship. simpl.
    unfold dict_get in *. destruct (state !! "ShipID"); [done|discriminate].
  - rewrite enrich_lookup, Haddr. simpl.
    unfold dict_get in *.
    destruct (state !! "SystemAddress"); [done|discriminate].
  - intros k H1 H2. rewrite enrich_lookup.
    repeat case_decide; congruence.
  - destruct (handle_event_trace net entry state w) as [E | (k & Hk & E)].
    + exfalso. revert E. unfold FC._handle_event. rewrite Hkey. simpl.
      rewrite Hne. simpl.
      assert (H : trace (emit (ESend
                (FC.post_of (fc_journal_endpoint (fc_worker (this w)))
                   api_key (FC.enrich entry state))) w) ≠ trace w).
      { intros E. simpl in E. apply (f_equal length) in E.
        rewrite length_app in E. simpl in E. lia. }
      destruct (net _ _) as [code body|]; [|by apply H].
      destruct (code =? 401)%Z; [by apply H|].
      destruct (code =? 200)%Z; by apply H.
    + eexists. split; [exact E|]. reflexivity.
Qed.

Lemma enrichment_sets_fields_witness :
  fst (FC._handle_event (net_const (Reply 200 None)) docked aux
         (World_init cfg_key)) !! "_shipId" = Some (VInt 2).
Proof.
  pose proof (enrichment_sets_fields (net_const (Reply 200 None)) docked aux
                (World_init cfg_key) "k"
                ltac:(vm_compute; reflexivity) ltac:(vm_compute; reflexivity)
                ltac:(vm_compute; reflexivity) ltac:(vm_compute; reflexivity))
    as (H & _).
  etransitivity; [exact H|]. vm_compute. reflexivity.
Defined.

(** ** Connection state *)

(** C4, as stated, fails for the fleet-carrier profile: a 401 answer to
    [_handle_event] is logged and the connection state stays connected. *)
Lemma handle_event_keeps_connected_on_401 :
  net_const (Reply 401 None) 0%nat
    (FC.post_of JOURNAL_ENDPOINT "k" (FC.enrich docked aux))
  = Reply 401 None
  ∧ connected (connected_world cfg_key) = VBool true
  ∧ connected (snd (FC._handle_event (net_const (Reply 401 None)) docked aux
                      (connected_world cfg_key))) = VBool true.
Proof. repeat split; vm_compute; reflexivity. Qed.

Lemma handle_event_connected (net : Transport)
  (entry state : gmap string PyVal) (w : World) :
  connected (snd (FC._handle_event net entry state w)) = connected w.
Proof.
  unfold FC._handle_event.
  destruct (negb _); [done|].
  destruct (net _ _) as [code body|]; [|done].
  destruct (code =? 401)%Z; [done|]. by destruct (code =? 200)%Z.
Qed.

Lemma submit_connected (net : Transport) (event : gmap string PyVal)
  (w : World) :
  connected (snd (submit_journal_event net event w)) = connected w
  ∨ connected (snd (submit_journal_event net event w)) = VBool false.
Proof.
  unfold submit_journal_event.
  destruct (negb (truthy _)); [by left|].
  destruct (negb (str_truthy _)); [by left|].
  destruct (net _ _) as [code body|]; [|by left].
  destruct (code =? 401)%Z; [by right|].
  destruct (code =? 200)%Z; by left.
Qed.

(** Only the operations that verify can do more to the connection state
    than leave it or set it to [False]. *)
Lemma exec_connected (net : Transport) (op : Op) (w : World) :
  verifies op = false →
  connected (exec net op w) = connected w
  ∨ connected (exec net op w) = VBool false.
Proof.
  destruct op; simpl; try discriminate; intros _; try (by left).
  - unfold journal_entry. destruct (negb _); [by left|].
    unfold FC.process_event.
    destruct (FC.should_handle_event entry) as [[]|]; by left.
  - unfold worker_iter. destruct (shutting_down _); [by left|].
    destruct (event_queue _) as [|[event|] q]; try (by left).
    match goal with
    | |- context [submit_journal_event net event ?w0] =>
        pose proof (submit_connected net event w0) as H;
        destruct (submit_journal_event net event w0) as [ok w1]
    end.
    simpl in H. by destruct ok.
  - unfold FC._worker_iter. destruct (fc_shutting_down _); [by left|].
    destruct (fc_queue _) as [|[[entry state]|] q]; try (by left).
    left. simpl. by rewrite handle_event_connected.
  - apply submit_connected.
  - left. apply handle_event_connected.
  - left. unfold schedule_verification.
    by destruct (verification_timer _).
Qed.

Lemma run_connected (net : Transport) (ops : list Op) (w : World) :
  forallb (fun op => negb (verifies op)) ops = true →
  truthy (connected w) = false →
  truthy (connected (run net ops w)) = false.
Proof.
  revert w. induction ops as [|op ops IH]; intros w Hops Hw; [done|].
  simpl in Hops. apply andb_true_iff in Hops as [Hop Hops].
  apply negb_true_iff in Hop.
  simpl. apply IH; [done|].
  destruct (exec_connected net op w Hop) as [-> | ->]; done.
Qed.

Lemma journal_entry_frame (cmdr : string) (is_beta : bool)
  (system station : string) (entry state : gmap string PyVal) (w : World) :
  let w' := snd (journal_entry cmdr is_beta system station entry state w) in
  event_queue (this w') = event_queue (this w)
  ∧ trace w' = trace w
  ∧ (the_fc_queue w' = the_fc_queue w
     ∨ the_fc_queue w' = the_fc_queue w ++ [Some (entry, state)]).
Proof.
  simpl. unfold journal_entry.
  destruct (negb _); [by repeat split; try left|].
  unfold FC.process_event.
  destruct (FC.should_handle_event entry) as [[]|]; simpl;
    repeat split; (by left) || (by right).
Qed.

Lemma verify_api_key_fst (net : Transport) (api_key : string) (w : World) :
  fst (verify_api_key net api_key w)
  = verdict (net (length (trace w)) (verify_call api_key)).
Proof.
  unfold verify_api_key, verdict.
  destruct (net _ _) as [code [[| | | | | |result]|]|]; reflexivity.
Qed.

Section Disconnected.

Variable net : Transport.
Variable n : nat.
Hypothesis Hnet : no_verify_succeeds net n.

Lemma disconnected_same (w w' : World) :
  connected w' = connected w →
  (length (trace w) ≤ length (trace w'))%nat →
  disconnected_since n w → disconnected_since n w'.
Proof. intros E Hl [H1 H2]. split; [by rewrite E|lia]. Qed.

Lemma disconnected_emit (e : Effect) (w : World) :
  disconnected_since n w → disconnected_since n (emit e w).
Proof.
  apply disconnected_same; [done|]. simpl. rewrite length_app. lia.
Qed.

Lemma verify_disconnected (k : string) (w : World) :
  disconnected_since n w →
  disconnected_since n (snd (verify_api_key net k w)).
Proof.
  intros [H1 H2].
  split.
  - rewrite verify_api_key_connected, verify_api_key_fst. by apply Hnet.
  - unfold verify_api_key.
    destruct (net _ _) as [code [[| | | | | |result]|]|]; simpl;
      rewrite length_app; lia.
Qed.

Lemma update_status_label_disconnected (w : World) :
  disconnected_since n w → disconnected_since n (update_status_label net w).
Proof.
  intros H. unfold update_status_label.
  destruct (status_label _); [|done].
  destruct (negb _).
  - by apply (disconnected_same w).
  - pose proof (verify_disconnected
                  (default "" (get_str (config w) "edsts_api_key")) w H) as H1.
    destruct (verify_api_key _ _ _) as [v w1]. simpl in H1.
    by apply (disconnected_same w1).
Qed.

Lemma schedule_verification_disconnected (w : World) :
  disconnected_since n w → disconnected_since n (schedule_verification w).
Proof.
  unfold schedule_verification.
  destruct (verification_timer _); by apply disconnected_same.
Qed.

Lemma submit_disconnected (event : gmap string PyVal) (w : World) :
  disconnected_since n w →
  disconnected_since n (snd (submit_journal_event net event w)).
Proof.
  intros H. unfold submit_journal_event. destruct H as [H1 H2].
  rewrite H1. by split.
Qed.

Lemma handle_event_disconnected (entry state : gmap string PyVal)
  (w : World) :
  disconnected_since n w →
  disconnected_since n (snd (FC._handle_event net entry state w)).
Proof.
  apply disconnected_same; [apply handle_event_connected|].
  destruct (handle_event_trace net entry state w) as [E | (k & _ & E)];
    rewrite E; [done|]. rewrite length_app. lia.
Qed.

Lemma exec_disconnected (op : Op) (w : World) :
  disconnected_since n w → disconnected_since n (exec net op w).
Proof.
  intros H. destruct op; simpl.
  - destruct (journal_entry_frame cmdr is_beta system station entry state w)
      as (_ & Ht & _).
    apply (disconnected_same w); [|by rewrite Ht|done].
    unfold journal_entry. destruct (negb _); [done|].
    unfold FC.process_event.
    by destruct (FC.should_handle_event entry) as [[]|].
  - unfold worker_iter. destruct (shutting_down _); [done|].
    destruct (event_queue _) as [|[event|] q].
    + by do 2 apply disconnected_emit.
    + match goal with
      | |- context [submit_journal_event net event ?w0] =>
          assert (H1 : disconnected_since n
                         (snd (submit_journal_event net event w0)))
            by (apply submit_disconnected, disconnected_emit;
                by apply (disconnected_same w));
          destruct (submit_journal_event net event w0) as [ok w1]
      end.
      simpl in H1. destruct ok; simpl; [done|by apply disconnected_emit].
    + simpl. apply disconnected_emit. by apply (disconnected_same w).
  - unfold FC._worker_iter. destruct (fc_shutting_down _); [done|].
    destruct (fc_queue _) as [|[[entry state]|] q]; [done| |].
    + simpl. apply handle_event_disconnected, disconnected_emit.
      by apply (disconnected_same w).
    + simpl. apply disconnected_emit. by apply (disconnected_same w).
  - unfold timer_fire. destruct (timers w !! i) as [t|]; [|done].
    destruct (status t); try done.
    apply schedule_verification_disconnected,
      update_status_label_disconnected.
    by apply (disconnected_same w).
  - by apply (disconnected_same w).
  - by apply (disconnected_same w).
  - apply schedule_verification_disconnected,
      update_status_label_disconnected.
    by apply (disconnected_same w).
  - unfold save_api_key. destruct (negb _); [done|].
    match goal with
    | |- context [verify_api_key net api_key ?w0] =>
        assert (H1 : disconnected_since n (snd (verify_api_key net api_key w0)))
          by (apply verify_disconnected; by apply (disconnected_same w));
        destruct (verify_api_key net api_key w0) as [ok w1]
    end.
    simpl. by apply update_status_label_disconnected.
  - apply update_status_label_disconnected. by apply (disconnected_same w).
  - by apply (disconnected_same w).
  - by apply submit_disconnected.
  - by apply handle_event_disconnected.
  - by apply verify_disconnected.
  - by apply update_status_label_disconnected.
  - by apply schedule_verification_disconnected.
Qed.

Lemma run_disconnected (ops : list Op) (w : World) :
  disconnected_since n w → disconnected_since n (run net ops w).
Proof.
  revert w. induction ops as [|op ops IH]; intros w H; [done|].
  simpl. by apply IH, exec_disconnected.
Qed.

End Disconnected.

(** C4, amended. In the general profile an answer 401 makes
    [submit_journal_event] return [False] and sets the connection state to
    disconnected; it then reads false after every later operation that
    does not verify the key, and through every run in which no
    verification succeeds.  Any other answer or an exception leaves the
    connection state as it was.  The fleet-carrier profile never changes
    the connection state, also on a 401. *)
Theorem unauthorized_disconnects (net : Transport)
  (event : gmap string PyVal) (w : World) (api_key : string)
  (Hconn : truthy (connected w) = true)
  (Hkey : get_str (config w) "edsts_api_key" = Some api_key)
  (Hne : PyStr.nonempty api_key = true) :
  let reply :=
    net (length (trace w)) (journal_post api_key (config w) event) in
  let w' := snd (submit_journal_event net event w) in
  (∀ body, reply = Reply 401 body →
     fst (submit_journal_event net event w) = false
     ∧ connected w' = VBool false
     ∧ (∀ ops, forallb (fun op => negb (verifies op)) ops = true →
          truthy (connected (run net ops w')) = false)
     ∧ (no_verify_succeeds net (length (trace w')) →
        ∀ ops, truthy (connected (run net ops w')) = false))
  ∧ ((∀ body, reply ≠ Reply 401 body) → connected w' = connected w)
  ∧ ∀ state, connected (snd (FC._handle_event net event state w))
             = connected w.
Proof.
  intros reply w'. subst reply w'.
  unfold submit_journal_event. rewrite Hconn, Hkey. simpl. rewrite Hne.
  simpl. split; [|split].
  - intros body ->. simpl. split; [done|]. split; [done|]. split.
    + intros ops Hops. by apply run_connected.
    + intros Hnet ops.
      by apply (run_disconnected net _ Hnet ops).
  - intros H. destruct (net _ _) as [code body|]; [|done].
    destruct (code =? 401)%Z eqn:E.
    + apply Z.eqb_eq in E as ->. by destruct (H body).
    + by destruct (code =? 200)%Z.
  - intros state. apply handle_event_connected.
Qed.

Lemma unauthorized_disconnects_witness :
  connected (snd (submit_journal_event (net_const (Reply 401 None)) docked
                    (connected_world cfg_key))) = VBool false
  ∧ truthy (connected
              (run (net_const (Reply 401 None))
                 [OVerify "k"; OJournalEntry "cmdr" false "Sol" "" docked aux;
                  OUpdateStatusLabel; OWorkerIter]
                 (snd (submit_journal_event (net_const (Reply 401 None))
                         docked (connected_world cfg_key))))) = false.
Proof.
  pose proof (unauthorized_disconnects (net_const (Reply 401 None)) docked
                (connected_world cfg_key) "k"
                ltac:(vm_compute; reflexivity) ltac:(vm_compute; reflexivity)
                ltac:(vm_compute; reflexivity)) as (H & _).
  destruct (H None eq_refl) as (_ & H1 & _ & H2).
  split; [exact H1|]. apply H2. intros m k _. reflexivity.
Defined.

(** ** Ingestion *)

Lemma general_unused_emit (e : Effect) (w : World) :
  fc_only e → general_unused w → general_unused (emit e w).
Proof.
  intros He [Hq Ht]. split; [done|]. simpl.
  apply Forall_app. split; [done|]. by constructor.
Qed.

Lemma general_unused_same (w w' : World) :
  event_queue (this w') = event_queue (this w) →
  trace w' = trace w →
  general_unused w → general_unused w'.
Proof. unfold general_unused. by intros -> ->. Qed.

Lemma verify_general_unused (net : Transport) (k : string) (w : World) :
  general_unused w → general_unused (snd (verify_api_key net k w)).
Proof.
  intros H. unfold verify_api_key.
  assert (H1 : general_unused (emit (ESend (verify_call k)) w)).
  { apply general_unused_emit; [|done]. simpl. discriminate. }
  destruct (net _ _) as [code [[| | | | | |result]|]|]; simpl;
    exact (general_unused_same _ _ eq_refl eq_refl H1).
Qed.

Lemma update_status_label_general_unused (net : Transport) (w : World) :
  general_unused w → general_unused (update_status_label net w).
Proof.
  intros H. unfold update_status_label.
  destruct (status_label _); [|done].
  destruct (negb _).
  - exact (general_unused_same _ _ eq_refl eq_refl H).
  - pose proof (verify_general_unused net
                  (default "" (get_str (config w) "edsts_api_key")) w H) as H1.
    destruct (verify_api_key _ _ _) as [v w1]. simpl in H1.
    exact (general_unused_same _ _ eq_refl eq_refl H1).
Qed.

Lemma schedule_verification_general_unused (w : World) :
  general_unused w → general_unused (schedule_verification w).
Proof.
  intros H. unfold schedule_verification.
  destruct (verification_timer _);
    exact (general_unused_same _ _ eq_refl eq_refl H).
Qed.

Lemma handle_event_general_unused (net : Transport)
  (entry state : gmap string PyVal) (w : World) :
  general_unused w →
  general_unused (snd (FC._handle_event net entry state w)).
Proof.
  intros H. unfold FC._handle_event.
  destruct (negb _); [done|]. cbv zeta.
  match goal with
  | |- context [emit (ESend ?c) w] =>
      assert (H1 : general_unused (emit (ESend c) w))
        by (apply general_unused_emit; [by intros _|done])
  end.
  destruct (net _ _) as [code body|]; [|done].
  destruct (code =? 401)%Z; [done|]. by destruct (code =? 200)%Z.
Qed.

Lemma exec_general_unused (net : Transport) (op : Op) (w : World) :
  entry_point op = true →
  general_unused w → general_unused (exec net op w).
Proof.
  destruct op; simpl; try discriminate; intros _ H.
  - destruct (journal_entry_frame cmdr is_beta system station entry state w)
      as (Hq & Ht & _).
    exact (general_unused_same _ _ Hq Ht H).
  - unfold worker_iter. destruct (shutting_down _); [done|].
    destruct H as [Hq Ht].
    destruct (event_queue (this w)) as [|item q] eqn:E.
    + split.
      { change (Forall (fun item => item = None) (event_queue (this w))).
        rewrite E. constructor. }
      simpl.
      rewrite !Forall_app. repeat split; try done; by repeat constructor.
    + inversion Hq as [|? ? Hitem Hq']; subst. simpl.
      split; [done|]. simpl. apply Forall_app. split; [done|].
      by repeat constructor.
  - unfold FC._worker_iter. destruct (fc_shutting_down _); [done|].
    destruct (fc_queue _) as [|item q]; [done|].
    match goal with
    | |- context [emit ?e ?w0] =>
        assert (H1 : general_unused (emit e w0))
    end.
    { apply general_unused_emit; [done|].
      exact (general_unused_same _ _ eq_refl eq_refl H). }
    destruct item as [[entry state]|]; [|done].
    simpl. by apply handle_event_general_unused.
  - unfold timer_fire. destruct (timers w !! i) as [t|]; [|done].
    destruct (status t); try done.
    unfold periodic_check.
    apply schedule_verification_general_unused,
      update_status_label_general_unused.
    exact (general_unused_same _ _ eq_refl eq_refl H).
  - exact (general_unused_same _ _ eq_refl eq_refl H).
  - destruct H as [Hq Ht]. split; [|done]. simpl.
    apply Forall_app. split; [done|]. by repeat constructor.
  - unfold plugin_app.
    apply schedule_verification_general_unused,
      update_status_label_general_unused.
    exact (general_unused_same _ _ eq_refl eq_refl H).
  - unfold save_api_key. destruct (negb _); [done|].
    match goal with
    | |- context [verify_api_key net api_key ?w0] =>
        assert (H1 : general_unused (snd (verify_api_key net api_key w0)))
          by (apply verify_general_unused;
              exact (general_unused_same _ _ eq_refl eq_refl H));
        destruct (verify_api_key net api_key w0) as [ok w1]
    end.
    simpl. by apply update_status_label_general_unused.
  - apply update_status_label_general_unused.
    exact (general_unused_same _ _ eq_refl eq_refl H).
  - exact (general_unused_same _ _ eq_refl eq_refl H).
Qed.

Lemma run_general_unused (net : Transport) (ops : list Op) (w : World) :
  forallb entry_point ops = true →
  general_unused w → general_unused (run net ops w).
Proof.
  revert w. induction ops as [|op ops IH]; intros w Hops Hw; [done|].
  simpl in Hops. apply andb_true_iff in Hops as [Hop Hops].
  simpl. apply IH; [done|]. by apply exec_general_unused.
Qed.

(** C5. [journal_entry] leaves the general queue alone: an accepted
    event goes to the end of the queue of the fleet-carrier worker and
    nowhere else.  Hence, through every run of the plugin from its start,
    the general queue holds stop markers only, the general worker takes
    no event from it, and every POST that is sent carries the bare
    permission header of the fleet-carrier profile. *)
Theorem ingestion_feeds_fc_queue_only (net : Transport) (cmdr : string)
  (is_beta : bool) (system station : string)
  (entry state : gmap string PyVal) (w : World) :
  let w' := snd (journal_entry cmdr is_beta system station entry state w) in
  event_queue (this w') = event_queue (this w)
  ∧ trace w' = trace w
  ∧ (the_fc_queue w' = the_fc_queue w
     ∨ the_fc_queue w' = the_fc_queue w ++ [Some (entry, state)])
  ∧ ∀ cfg ops, forallb entry_point ops = true →
      let wr := run net ops (World_init cfg) in
      (∀ item, item ∈ event_queue (this wr) → item = None)
      ∧ (∀ event, EGet (Some event) ∉ trace wr)
      ∧ (∀ c, ESend c ∈ trace wr → method c = "POST" →
           header c "x-permissions" = Some "EDStS").
Proof.
  pose proof (journal_entry_frame cmdr is_beta system station entry state w)
    as (H1 & H2 & H3).
  simpl. repeat split; try done.
  all: intros; 
    destruct (run_general_unused net ops (World_init cfg)) as [Hq Ht];
    [done | by split; constructor | ].
  - rewrite Forall_forall in Hq. by apply Hq.
  - rewrite Forall_forall in Ht. intros Hin. exact (Ht _ Hin).
  - rewrite Forall_forall in Ht. by apply (Ht (ESend c)).
Qed.

Lemma ingestion_feeds_fc_queue_only_witness :
  the_fc_queue (run (net_const (reply_valid 200 (VBool true)))
                  [OPluginStart "dir"; OPluginApp;
                   OJournalEntry "cmdr" false "Sol" "" docked aux]
                  (World_init cfg_perms)) = [Some (docked, aux)]
  ∧ ∀ item,
      item ∈ event_queue
               (this (run (net_const (reply_valid 200 (VBool true)))
                        sample_run (World_init cfg_perms))) →
      item = None.
Proof.
  split; [vm_compute; reflexivity|].
  pose proof (ingestion_feeds_fc_queue_only
                (net_const (reply_valid 200 (VBool true)))
                "cmdr" false "Sol" "" docked aux (World_init cfg_perms))
    as (_ & _ & _ & H).
  exact (proj1 (H cfg_perms sample_run eq_refl)).
Defined.

(** ** Event filter *)

(** C6. The filter that the plugin uses, [should_handle_event], is a
    function of its argument alone: a name outside [FC_EVENTS] is refused
    without an exception, and [journal_entry] queues nothing for it, the
    world is left as it was.  The other filter, [should_process_event],
    never gets as far as its membership test: it raises [NameError] for
    every name, since [IMPORTANT_EVENTS] is bound nowhere. *)
Theorem filter_rejects (name timestamp : string)
  (entry state : gmap string PyVal) (w : World)
  (cmdr : string) (is_beta : bool) (system station : string)
  (Hname : name ∉ FC_EVENTS)
  (Hentry : entry !! "event" = Some (VStr name)) :
  should_process_event name timestamp = Exn "NameError"
  ∧ FC.should_handle_event entry = Ok false
  ∧ FC.process_event entry state w = (Ok tt, w)
  ∧ journal_entry cmdr is_beta system station entry state w = (Ok None, w).
Proof.
  assert (Hf : FC.should_handle_event entry = Ok false).
  { unfold FC.should_handle_event, dict_get. rewrite Hentry. simpl.
    by rewrite bool_decide_eq_false_2. }
  split; [reflexivity|]. split; [exact Hf|]. split.
  - unfold FC.process_event. by rewrite Hf.
  - unfold journal_entry, FC.process_event. rewrite Hf.
    by destruct (negb _).
Qed.

Lemma filter_rejects_witness :
  should_process_event "Music" "2024-01-01T00:00:00Z" = Exn "NameError"
  ∧ FC.should_handle_event {[ "event" := VStr "Music" ]} = Ok false
  ∧ journal_entry "cmdr" false "Sol" "" {[ "event" := VStr "Music" ]} aux
      (connected_world cfg_key) = (Ok None, connected_world cfg_key).
Proof.
  pose proof (filter_rejects "Music" "2024-01-01T00:00:00Z"
                {[ "event" := VStr "Music" ]} aux (connected_world cfg_key)
                "cmdr" false "Sol" ""
                ltac:(apply (bool_decide_eq_true_1 _); vm_compute; reflexivity)
                ltac:(vm_compute; reflexivity))
    as (H0 & H1 & _ & H2).
  exact (conj H0 (conj H1 H2)).
Defined.

(** ** Verification timer *)

(** C9, as stated, fails: [plugin_stop] does not cancel the timer.  The
    timer armed by [plugin_app] is still pending after the stop, and when
    its interval has passed it verifies the key once more and arms a new
    timer. *)
Lemma stop_leaves_timer_armed :
  timers (plugin_stop (plugin_app (net_const (reply_valid 200 (VBool true)))
                         (World_init cfg_key)))
  = [ {| interval := 600; daemon := true; status := Pending |} ]
  ∧ sends (trace (plugin_stop
                    (plugin_app (net_const (reply_valid 200 (VBool true)))
                       (World_init cfg_key)))) = 1%nat
  ∧ sends (trace (timer_fire (net_const (reply_valid 200 (VBool true))) 0
                    (plugin_stop
                       (plugin_app
                          (net_const (reply_valid 200 (VBool true)))
                          (World_init cfg_key))))) = 2%nat
  ∧ timers (timer_fire (net_const (reply_valid 200 (VBool true))) 0
              (plugin_stop
                 (plugin_app (net_const (reply_valid 200 (VBool true)))
                    (World_init cfg_key))))
    = [ {| interval := 600; daemon := true; status := Fired |};
        {| interval := 600; daemon := true; status := Pending |} ].
Proof. repeat split; vm_compute; reflexivity. Qed.

(** ** Worker loops *)

Local Ltac split3 := split; [|split].

Lemma sends_snoc (tr : list Effect) (e : Effect) :
  sends (tr ++ [e]) = (sends tr + (if is_send e then 1 else 0))%nat.
Proof.
  unfold sends. rewrite List.filter_app, length_app. simpl.
  by destruct (is_send e).
Qed.

Lemma sleeps_snoc (tr : list Effect) (e : Effect) :
  List.filter is_sleep (tr ++ [e])
  = List.filter is_sleep tr ++ (if is_sleep e then [e] else []).
Proof. rewrite List.filter_app. simpl. by destruct (is_sleep e). Qed.

Lemma submit_event_queue (net : Transport) (event : gmap string PyVal)
  (w : World) :
  event_queue (this (snd (submit_journal_event net event w)))
  = event_queue (this w).
Proof.
  unfold submit_journal_event.
  destruct (negb (truthy _)); [done|].
  destruct (negb (str_truthy _)); [done|].
  destruct (net _ _) as [code body|]; [|done].
  destruct (code =? 401)%Z; [done|]. by destruct (code =? 200)%Z.
Qed.

Lemma handle_event_fc_queue (net : Transport)
  (entry state : gmap string PyVal) (w : World) :
  the_fc_queue (snd (FC._handle_event net entry state w)) = the_fc_queue w.
Proof.
  unfold FC._handle_event.
  destruct (negb _); [done|].
  destruct (net _ _) as [code body|]; [|done].
  destruct (code =? 401)%Z; [done|]. by destruct (code =? 200)%Z.
Qed.

(** A turn of the general worker on a real event. *)
Lemma worker_iter_event (net : Transport) (w : World)
  (event : gmap string PyVal) (q : list (option (gmap string PyVal))) :
  shutting_down (this w) = false →
  event_queue (this w) = Some event :: q →
  let w0 := emit (EGet (Some event)) (with_this (set_event_queue q) w) in
  let ok := fst (submit_journal_event net event w0) in
  let w1 := snd (submit_journal_event net event w0) in
  fst (worker_iter net w) = Running
  ∧ event_queue (this (snd (worker_iter net w))) = q
  ∧ trace (snd (worker_iter net w))
    = trace w1 ++ (if ok then [] else [ESleep 5])
  ∧ (trace w1 = trace w ++ [EGet (Some event)]
     ∨ ∃ c, trace w1 = trace w ++ [EGet (Some event); ESend c]).
Proof.
  intros Hs Hq w0 ok w1. unfold worker_iter. rewrite Hs, Hq. fold w0.
  pose proof (submit_event_queue net event w0) as Hev.
  pose proof (submit_journal_event_trace net event w0) as Htr.
  subst ok w1.
  destruct (submit_journal_event net event w0) as [ok w1]. simpl in *.
  split; [|split; [|split]].
  - by destruct ok.
  - by destruct ok.
  - destruct ok; simpl; [by rewrite app_nil_r|done].
  - destruct Htr as [E | (k & _ & E)]; rewrite E.
    + by left.
    + right. eexists. by rewrite <- app_assoc.
Qed.

(** A turn of the fleet-carrier worker on a real event. *)
Lemma fc_worker_iter_event (net : Transport) (w : World)
  (entry state : gmap string PyVal)
  (q : list (option (gmap string PyVal * gmap string PyVal))) :
  fc_shutting_down (fc_worker (this w)) = false →
  the_fc_queue w = Some (entry, state) :: q →
  fst (FC._worker_iter net w) = Running
  ∧ the_fc_queue (snd (FC._worker_iter net w)) = q
  ∧ (trace (snd (FC._worker_iter net w))
     = trace w ++ [EGetFC (Some (entry, state))]
     ∨ ∃ c, trace (snd (FC._worker_iter net w))
            = trace w ++ [EGetFC (Some (entry, state)); ESend c]).
Proof.
  unfold the_fc_queue. intros Hs Hq. unfold FC._worker_iter.
  rewrite Hs, Hq. simpl. split3; [done| |].
  - match goal with
    | |- context [FC._handle_event net entry state ?w0] =>
        exact (handle_event_fc_queue net entry state w0)
    end.
  - match goal with
    | |- context [FC._handle_event net entry state ?w0] =>
        destruct (handle_event_trace net entry state w0)
          as [E | (k & _ & E)]; rewrite E
    end.
    + by left.
    + right. eexists. simpl. by rewrite <- app_assoc.
Qed.

(** A turn of the general worker never puts anything back, and sends at
    most once for the item it takes. *)
Lemma worker_iter_once (net : Transport) (w : World) :
  let w' := snd (worker_iter net w) in
  (∃ taken, event_queue (this w) = taken ++ event_queue (this w'))
  ∧ (sends (trace w') + length (event_queue (this w'))
     ≤ sends (trace w) + length (event_queue (this w)))%nat
  ∧ (∀ e, e ∈ List.filter is_sleep (trace w') →
       e ∈ List.filter is_sleep (trace w) ∨ e = ESleep 5).
Proof.
  simpl. unfold worker_iter.
  destruct (shutting_down (this w)) eqn:Hs.
  { simpl. split3; [by exists []|lia|by left]. }
  destruct (event_queue (this w)) as [|[event|] q] eqn:Hq.
  - simpl. rewrite Hq. split3; [by exists []| |].
    + rewrite !sends_snoc. simpl. lia.
    + intros e. rewrite !sleeps_snoc. simpl. rewrite app_nil_r.
      intros [He | He%list_elem_of_singleton]%elem_of_app; [by left|by right].
  - destruct (worker_iter_event net w event q Hs Hq) as (_ & H2 & H3 & H4).
    unfold worker_iter in H2, H3. rewrite Hs, Hq in H2, H3.
    cbv zeta in H2, H3, H4. rewrite H2, H3.
    set (ok := fst (submit_journal_event net event _)) in *.
    set (w1 := snd (submit_journal_event net event _)) in *.
    split3; [by exists [Some event]| |].
    + assert (sends (trace w1) ≤ sends (trace w) + 1)%nat.
      { destruct H4 as [-> | (c & ->)].
        - rewrite sends_snoc. simpl. lia.
        - change [EGet (Some event); ESend c]
            with ([EGet (Some event)] ++ [ESend c]).
          rewrite app_assoc, !sends_snoc. simpl. lia. }
      destruct ok; [rewrite app_nil_r | rewrite sends_snoc]; simpl; lia.
    + assert (Hsl : List.filter is_sleep (trace w1)
                    = List.filter is_sleep (trace w)).
      { destruct H4 as [-> | (c & ->)].
        - rewrite sleeps_snoc. simpl. by rewrite app_nil_r.
        - change [EGet (Some event); ESend c]
            with ([EGet (Some event)] ++ [ESend c]).
          rewrite app_assoc, !sleeps_snoc. simpl. by rewrite !app_nil_r. }
      intros e. destruct ok.
      * rewrite app_nil_r, Hsl. by left.
      * rewrite sleeps_snoc, Hsl. simpl.
        intros [He | He%list_elem_of_singleton]%elem_of_app; [by left|by right].
  - simpl. split3; [by exists [None]| |].
    + rewrite sends_snoc. simpl. lia.
    + intros e. rewrite sleeps_snoc. simpl. rewrite app_nil_r. by left.
Qed.

(** A turn of the fleet-carrier worker never puts anything back, sends
    at most once for the item it takes, and never sleeps. *)
Lemma fc_worker_iter_once (net : Transport) (w : World) :
  let w' := snd (FC._worker_iter net w) in
  (∃ taken, the_fc_queue w = taken ++ the_fc_queue w')
  ∧ (sends (trace w') + length (the_fc_queue w')
     ≤ sends (trace w) + length (the_fc_queue w))%nat
  ∧ List.filter is_sleep (trace w') = List.filter is_sleep (trace w).
Proof.
  simpl.
  destruct (fc_shutting_down (fc_worker (this w))) eqn:Hs.
  { unfold FC._worker_iter. rewrite Hs. simpl.
    split3; [by exists []|lia|done]. }
  destruct (the_fc_queue w) as [|[[entry state]|] q] eqn:Hq.
  - unfold FC._worker_iter. unfold the_fc_queue in *. rewrite Hs, Hq.
    simpl. rewrite Hq. split3; [by exists []|simpl; lia|done].
  - destruct (fc_worker_iter_event net w entry state q Hs Hq)
      as (_ & H2 & H3).
    rewrite H2. split3; [by exists [Some (entry, state)]| |].
    + destruct H3 as [-> | (c & ->)].
      * rewrite sends_snoc. simpl. lia.
      * change [EGetFC (Some (entry, state)); ESend c]
          with ([EGetFC (Some (entry, state))] ++ [ESend c]).
        rewrite app_assoc, !sends_snoc. simpl. lia.
    + destruct H3 as [-> | (c & ->)].
      * rewrite sleeps_snoc. simpl. by rewrite app_nil_r.
      * change [EGetFC (Some (entry, state)); ESend c]
          with ([EGetFC (Some (entry, state))] ++ [ESend c]).
        rewrite app_assoc, !sleeps_snoc. simpl. by rewrite !app_nil_r.
  - unfold FC._worker_iter. unfold the_fc_queue in *. rewrite Hs, Hq.
    simpl. split3; [by exists [None]| |].
    + rewrite sends_snoc. simpl. lia.
    + rewrite sleeps_snoc. simpl. by rewrite app_nil_r.
Qed.

Lemma worker_once (net : Transport) (fuel : nat) (w : World) :
  let w' := snd (worker net fuel w) in
  (∃ taken, event_queue (this w) = taken ++ event_queue (this w'))
  ∧ (sends (trace w') + length (event_queue (this w'))
     ≤ sends (trace w) + length (event_queue (this w)))%nat
  ∧ (∀ e, e ∈ List.filter is_sleep (trace w') →
       e ∈ List.filter is_sleep (trace w) ∨ e = ESleep 5).
Proof.
  revert w. induction fuel as [|fuel IH]; intros w; simpl.
  { split3; [by exists []|lia|by left]. }
  pose proof (worker_iter_once net w) as H. cbv zeta in H.
  destruct H as ([taken Ht] & Hn & Hsl).
  destruct (worker_iter net w) as [[] w1]; simpl in *;
    try (split3; [by exists taken|lia|done]).
  pose proof (IH w1) as H. cbv zeta in H.
  destruct H as ([taken' Ht'] & Hn' & Hsl').
  split3.
  - exists (taken ++ taken'). by rewrite <- app_assoc, <- Ht', <- Ht.
  - lia.
  - intros e He. destruct (Hsl' e He) as [H | H]; [|by right].
    by apply Hsl.
Qed.

Lemma fc_worker_loop_once (net : Transport) (fuel : nat) (w : World) :
  let w' := snd (FC._worker_loop net fuel w) in
  (∃ taken, the_fc_queue w = taken ++ the_fc_queue w')
  ∧ (sends (trace w') + length (the_fc_queue w')
     ≤ sends (trace w) + length (the_fc_queue w))%nat
  ∧ List.filter is_sleep (trace w') = List.filter is_sleep (trace w).
Proof.
  revert w. induction fuel as [|fuel IH]; intros w; simpl.
  { split3; [by exists []|lia|done]. }
  pose proof (fc_worker_iter_once net w) as H. cbv zeta in H.
  destruct H as ([taken Ht] & Hn & Hsl).
  destruct (FC._worker_iter net w) as [[] w1]; simpl in *;
    try (split3; [by exists taken|lia|done]).
  pose proof (IH w1) as H. cbv zeta in H.
  destruct H as ([taken' Ht'] & Hn' & Hsl').
  split3.
  - exists (taken ++ taken'). by rewrite <- app_assoc, <- Ht', <- Ht.
  - lia.
  - by rewrite Hsl'.
Qed.

(** C10, as stated, fails for the fleet-carrier worker: after an answer
    500 it sleeps for no time at all and waits for the next item at
    once. *)
Lemma fc_worker_has_no_backoff :
  net_const (Reply 500 None) 1%nat
    (FC.post_of JOURNAL_ENDPOINT "k" (FC.enrich docked aux))
  = Reply 500 None
  ∧ trace (snd (FC._worker_loop (net_const (Reply 500 None)) 3
                  queued_world))
    = [ EGetFC (Some (docked, aux));
        ESend (FC.post_of JOURNAL_ENDPOINT "k" (FC.enrich docked aux)) ]
  ∧ fst (FC._worker_loop (net_const (Reply 500 None)) 3 queued_world)
    = Blocked
  ∧ List.filter is_sleep
      (trace (snd (FC._worker_loop (net_const (Reply 500 None)) 3
                     queued_world))) = [].
Proof. repeat split; vm_compute; reflexivity. Qed.

(** C10, amended. In the general worker loop a turn that took an event
    ends with the submission when it returned [True], so that the next
    fetch follows with no delay, and with a sleep of 5 when it returned
    [False].  The fleet-carrier worker loop never sleeps: after any
    outcome the next fetch follows at once.  In both loops nothing is put
    back on the queue and at most one call is sent for each item taken. *)
Theorem worker_backoff (net : Transport) (w : World) :
  (∀ event q,
     shutting_down (this w) = false →
     event_queue (this w) = Some event :: q →
     let w0 := emit (EGet (Some event)) (with_this (set_event_queue q) w) in
     let ok := fst (submit_journal_event net event w0) in
     let w1 := snd (submit_journal_event net event w0) in
     fst (worker_iter net w) = Running
     ∧ event_queue (this (snd (worker_iter net w))) = q
     ∧ trace (snd (worker_iter net w))
       = trace w1 ++ (if ok then [] else [ESleep 5])
     ∧ (trace w1 = trace w ++ [EGet (Some event)]
        ∨ ∃ c, trace w1 = trace w ++ [EGet (Some event); ESend c]))
  ∧ (∀ entry state q,
       fc_shutting_down (fc_worker (this w)) = false →
       the_fc_queue w = Some (entry, state) :: q →
       fst (FC._worker_iter net w) = Running
       ∧ the_fc_queue (snd (FC._worker_iter net w)) = q
       ∧ (trace (snd (FC._worker_iter net w))
          = trace w ++ [EGetFC (Some (entry, state))]
          ∨ ∃ c, trace (snd (FC._worker_iter net w))
                 = trace w ++ [EGetFC (Some (entry, state)); ESend c]))
  ∧ (∀ fuel,
       let w' := snd (worker net fuel w) in
       (∃ taken, event_queue (this w) = taken ++ event_queue (this w'))
       ∧ (sends (trace w') + length (event_queue (this w'))
          ≤ sends (trace w) + length (event_queue (this w)))%nat
       ∧ (∀ e, e ∈ List.filter is_sleep (trace w') →
            e ∈ List.filter is_sleep (trace w) ∨ e = ESleep 5))
  ∧ (∀ fuel,
       let w' := snd (FC._worker_loop net fuel w) in
       (∃ taken, the_fc_queue w = taken ++ the_fc_queue w')
       ∧ (sends (trace w') + length (the_fc_queue w')
          ≤ sends (trace w) + length (the_fc_queue w))%nat
       ∧ List.filter is_sleep (trace w')
         = List.filter is_sleep (trace w)).
Proof.
  split; [|split; [|split]].
  - intros event q. apply worker_iter_event.
  - intros entry state q. apply fc_worker_iter_event.
  - intros fuel. apply worker_once.
  - intros fuel. apply fc_worker_loop_once.
Qed.

Lemma worker_backoff_witness :
  trace (snd (worker_iter (net_const (Reply 500 None))
                (with_this (set_event_queue [Some docked])
                   (connected_world cfg_key))))
  = [ EGet (Some docked); ESend (journal_post "k" cfg_key docked);
      ESleep 5 ]
  ∧ trace (snd (worker_iter (net_const (Reply 200 None))
                  (with_this (set_event_queue [Some docked])
                     (connected_world cfg_key))))
    = [ EGet (Some docked); ESend (journal_post "k" cfg_key docked) ].
Proof.
  split.
  - pose proof (worker_backoff (net_const (Reply 500 None))
                  (with_this (set_event_queue [Some docked])
                     (connected_world cfg_key))) as (H & _).
    destruct (H docked [] eq_refl eq_refl) as (_ & _ & E & _).
    etransitivity; [exact E|]. vm_compute. reflexivity.
  - pose proof (worker_backoff (net_const (Reply 200 None))
                  (with_this (set_event_queue [Some docked])
                     (connected_world cfg_key))) as (H & _).
    destruct (H docked [] eq_refl eq_refl) as (_ & _ & E & _).
    etransitivity; [exact E|]. vm_compute. reflexivity.
Defined.

(** * Further properties *)

(** ** Submission *)

(** X1. [submit_journal_event] returns [True] exactly when the state is
    connected, a non-empty key is configured and the answer has status
    200; the world is then the old one with the one call added. *)
Theorem submit_delivered_iff (net : Transport)
  (event : gmap string PyVal) (w : World) :
  (fst (submit_journal_event net event w) = true ↔
   truthy (connected w) = true ∧
   ∃ api_key body,
     get_str (config w) "edsts_api_key" = Some api_key
     ∧ PyStr.nonempty api_key = true
     ∧ net (length (trace w)) (journal_post api_key (config w) event)
       = Reply 200 body)
  ∧ (fst (submit_journal_event net event w) = true →
     ∃ api_key,
       get_str (config w) "edsts_api_key" = Some api_key
       ∧ snd (submit_journal_event net event w)
         = emit (ESend (journal_post api_key (config w) event)) w).
Proof.
  unfold submit_journal_event.
  destruct (truthy (connected w)) eqn:Hc; simpl.
  2:{ split; [split|]; try discriminate. by intros [? _]. }
  destruct (get_str (config w) "edsts_api_key") as [k|] eqn:Hk; simpl.
  2:{ split; [split|]; try discriminate. by intros (_ & ? & ? & ? & _). }
  destruct (PyStr.nonempty k) eqn:Hne; simpl.
  2:{ split; [split|]; try discriminate.
      intros (_ & k' & ? & [= <-] & ? & _). congruence. }
  destruct (net _ _) as [code body|] eqn:Hr.
  2:{ split; [split|]; try discriminate.
      intros (_ & k' & ? & [= <-] & _ & ?). congruence. }
  destruct (code =? 401)%Z eqn:E1.
  { apply Z.eqb_eq in E1 as ->. split; [split|]; try discriminate.
    intros (_ & k' & ? & [= <-] & _ & ?). congruence. }
  destruct (code =? 200)%Z eqn:E2; simpl.
  - apply Z.eqb_eq in E2 as ->. split; [split|].
    + intros _. split; [done|]. by exists k, body.
    + done.
    + intros _. by exists k.
  - apply Z.eqb_neq in E2. split; [split|]; try discriminate.
    intros (_ & k' & ? & [= <-] & _ & ?). congruence.
Qed.

Lemma handle_event_with_key (net : Transport)
  (entry state : gmap string PyVal) (w : World) (k : string) :
  get_str (config w) "edsts_api_key" = Some k →
  PyStr.nonempty k = true →
  FC._handle_event net entry state w
  = (FC.enrich entry state,
     emit (ESend (FC.post_of (fc_journal_endpoint (fc_worker (this w))) k
                    (FC.enrich entry state))) w).
Proof.
  intros Hk Hne. unfold FC._handle_event. rewrite Hk. simpl. rewrite Hne.
  simpl. destruct (net _ _) as [code body|]; [|done].
  destruct (code =? 401)%Z; [done|]. by destruct (code =? 200)%Z.
Qed.

(** ** The loop of the fleet-carrier worker *)













(** ** The loop of the general worker *)

Lemma submit_shutting_down (net : Transport) (event : gmap string PyVal)
  (w : World) :
  shutting_down (this (snd (submit_journal_event net event w)))
  = shutting_down (this w).
Proof.
  unfold submit_journal_event.
  destruct (negb (truthy _)); [done|].
  destruct (negb (str_truthy _)); [done|].
  destruct (net _ _) as [code body|]; [|done].
  destruct (code =? 401)%Z; [done|]. by destruct (code =? 200)%Z.
Qed.

Lemma submit_sends (net : Transport) (event : gmap string PyVal)
  (w : World) :
  (sends (trace (snd (submit_journal_event net event w)))
   ≤ sends (trace w) + 1)%nat.
Proof.
  destruct (submit_journal_event_trace net event w) as [E | (k & _ & E)];
    rewrite E; [lia|].
  rewrite sends_snoc. simpl. lia.
Qed.

(** A turn of the general worker that finds an event keeps the loop
    running, whatever the submission gives. *)
Lemma worker_iter_some (net : Transport) (w : World)
  (event : gmap string PyVal) (q : list (option (gmap string PyVal))) :
  shutting_down (this w) = false →
  event_queue (this w) = Some event :: q →
  ∃ w1,
    worker_iter net w = (Running, w1)
    ∧ event_queue (this w1) = q
    ∧ shutting_down (this w1) = false
    ∧ (sends (trace w1) ≤ sends (trace w) + 1)%nat.
Proof.
  intros Hs Hq. unfold worker_iter. rewrite Hs, Hq.
  set (w0 := emit (EGet (Some event)) (with_this (set_event_queue q) w)).
  pose proof (submit_event_queue net event w0) as Hev.
  pose proof (submit_shutting_down net event w0) as Hsd.
  pose proof (submit_sends net event w0) as Hn.
  assert (Hw0 : sends (trace w0) = sends (trace w)).
  { unfold w0. simpl. rewrite sends_snoc. simpl. lia. }
  destruct (submit_journal_event net event w0) as [ok w1].
  cbn [snd] in Hev, Hsd, Hn.
  destruct ok; cbn [negb].
  - exists w1. split; [done|]. split; [done|]. split; [by rewrite Hsd|].
    lia.
  - exists (emit (ESleep 5) w1). split; [done|]. split; [done|].
    split; [change (shutting_down (this w1) = false); by rewrite Hsd|].
    cbn [emit trace]. rewrite sends_snoc. cbn [is_send]. lia.
Qed.

Lemma worker_prefix (net : Transport)
  (events : list (gmap string PyVal)) :
  ∀ (fuel : nat) (w : World) (tl : list (option (gmap string PyVal))),
    shutting_down (this w) = false →
    event_queue (this w) = (Some <$> events) ++ tl →
    ∃ w',
      worker net (length events + fuel) w = worker net fuel w'
      ∧ event_queue (this w') = tl
      ∧ shutting_down (this w') = false
      ∧ (sends (trace w') ≤ sends (trace w) + length events)%nat.
Proof.
  induction events as [|event events IH]; intros fuel w tl Hs Hq.
  - exists w. simpl. repeat split; try done. lia.
  - simpl in Hq.
    destruct (worker_iter_some net w event _ Hs Hq)
      as (w1 & Hstep & Hq1 & Hs1 & Hn1).
    destruct (IH fuel w1 tl Hs1 Hq1) as (w' & Hl & Hq' & Hs' & Hn').
    exists w'. split; [|split; [|split]]; try done.
    + change (length (event :: events) + fuel)%nat
        with (S (length events + fuel)).
      simpl. by rewrite Hstep.
    + simpl. lia.
Qed.

(** X4. The stop marker ends the general loop: after at most one call
    for each event queued before it, the loop takes the marker and
    stops; what was queued after the marker stays in the queue. *)
Theorem worker_stops_at_marker (net : Transport)
  (events : list (gmap string PyVal))
  (rest : list (option (gmap string PyVal))) (fuel : nat) (w : World)
  (Hs : shutting_down (this w) = false)
  (Hq : event_queue (this w) = (Some <$> events) ++ None :: rest)
  (Hfuel : (length events < fuel)%nat) :
  fst (worker net fuel w) = Stopped
  ∧ event_queue (this (snd (worker net fuel w))) = rest
  ∧ (sends (trace (snd (worker net fuel w)))
     ≤ sends (trace w) + length events)%nat
  ∧ ∃ tr, trace (snd (worker net fuel w)) = tr ++ [EGet None].
Proof.
  destruct (worker_prefix net events (fuel - length events) w (None :: rest)
              Hs Hq) as (w' & Hl & Hq' & Hs' & Hn').
  replace (length events + (fuel - length events))%nat with fuel in Hl
    by lia.
  rewrite Hl.
  destruct (fuel - length events)%nat as [|f] eqn:E; [lia|].
  simpl. unfold worker_iter. rewrite Hs', Hq'. simpl.
  split; [done|]. split; [done|]. split.
  - rewrite sends_snoc. simpl. lia.
  - by exists (trace w').
Qed.

Lemma worker_stops_at_marker_witness :
  event_queue
    (this (snd (worker (net_const (Reply 401 None)) 4
                  (with_this (set_event_queue [Some docked; None;
                                               Some docked])
                     (connected_world cfg_key)))))
  = [Some docked].
Proof.
  apply (worker_stops_at_marker (net_const (Reply 401 None))
           [docked] [Some docked] 4
           (with_this (set_event_queue [Some docked; None; Some docked])
              (connected_world cfg_key)));
    try (vm_compute; reflexivity); simpl; lia.
Defined.

(** X5. A general worker whose queue is empty never stops by itself:
    in every turn its [get] times out after 5, the exception is handled
    with a sleep of 5, and nothing is sent or changed. *)
Theorem worker_idles (net : Transport) (fuel : nat) (w : World)
  (Hs : shutting_down (this w) = false)
  (Hq : event_queue (this w) = []) :
  fst (worker net fuel w) = Running
  ∧ this (snd (worker net fuel w)) = this w
  ∧ config (snd (worker net fuel w)) = config w
  ∧ trace (snd (worker net fuel w)) = trace w ++ idle_turns fuel.
Proof.
  revert w Hs Hq. induction fuel as [|fuel IH]; intros w Hs Hq.
  - simpl. unfold idle_turns. simpl. by rewrite app_nil_r.
  - simpl. unfold worker_iter. rewrite Hs, Hq.
    destruct (IH (emit (ESleep 5) (emit (EEmpty 5) w)) Hs Hq)
      as (H1 & H2 & H3 & H4).
    rewrite H1, H2, H3, H4. repeat split.
    simpl. unfold idle_turns. simpl. by rewrite <- !app_assoc.
Qed.

Lemma worker_idles_witness :
  trace (snd (worker (net_const (Reply 200 None)) 2
                (connected_world cfg_key)))
  = [EEmpty 5; ESleep 5; EEmpty 5; ESleep 5].
Proof.
  apply (worker_idles (net_const (Reply 200 None)) 2
           (connected_world cfg_key)); reflexivity.
Defined.

(** X6. After [plugin_stop] neither loop takes another item: both stop
    at the test of their flag, so the events that were still queued, now
    in front of the stop markers, are never sent. *)
Theorem stop_drops_pending (net : Transport) (fuel : nat) (w : World) :
  snd (worker net fuel (plugin_stop w)) = plugin_stop w
  ∧ snd (FC._worker_loop net fuel (plugin_stop w)) = plugin_stop w
  ∧ event_queue (this (plugin_stop w)) = event_queue (this w) ++ [None]
  ∧ the_fc_queue (plugin_stop w) = the_fc_queue w ++ [None]
  ∧ trace (plugin_stop w) = trace w
  ∧ fst (worker net (S fuel) (plugin_stop w)) = Stopped
  ∧ fst (FC._worker_loop net (S fuel) (plugin_stop w)) = Stopped.
Proof.
  destruct fuel; repeat split.
Qed.

(** ** Timers through a run *)

Lemma same_timers_refl (w : World) : same_timers w w.
Proof. by split. Qed.

Lemma same_timers_trans (w1 w2 w3 : World) :
  same_timers w1 w2 → same_timers w2 w3 → same_timers w1 w3.
Proof. intros [H1 H2] [H3 H4]. split; congruence. Qed.

Lemma single_timer_same (w w' : World) :
  same_timers w w' → single_timer w → single_timer w'.
Proof.
  intros [Ht Hv] [H1 H2]. split.
  - intros j t. rewrite Ht, Hv. apply H1.
  - intros i. rewrite Ht, Hv. apply H2.
Qed.

Lemma verify_same_timers (net : Transport) (k : string) (w : World) :
  same_timers w (snd (verify_api_key net k w)).
Proof.
  unfold verify_api_key.
  destruct (net _ _) as [code [[| | | | | |result]|]|]; by split.
Qed.

Lemma update_status_label_same_timers (net : Transport) (w : World) :
  same_timers w (update_status_label net w).
Proof.
  unfold update_status_label.
  destruct (status_label _); [|by split].
  destruct (negb _); [by split|].
  pose proof (verify_same_timers net
                (default "" (get_str (config w) "edsts_api_key")) w) as H.
  destruct (verify_api_key _ _ _) as [v w1]. simpl in H.
  apply (same_timers_trans _ w1); [done|by split].
Qed.

Lemma submit_same_timers (net : Transport) (event : gmap string PyVal)
  (w : World) :
  same_timers w (snd (submit_journal_event net event w)).
Proof.
  unfold submit_journal_event.
  destruct (negb (truthy _)); [by split|].
  destruct (negb (str_truthy _)); [by split|].
  destruct (net _ _) as [code body|]; [|by split].
  destruct (code =? 401)%Z; [by split|]. by destruct (code =? 200)%Z.
Qed.

Lemma handle_event_same_timers (net : Transport)
  (entry state : gmap string PyVal) (w : World) :
  same_timers w (snd (FC._handle_event net entry state w)).
Proof.
  unfold FC._handle_event.
  destruct (negb _); [by split|].
  destruct (net _ _) as [code body|]; [|by split].
  destruct (code =? 401)%Z; [by split|]. by destruct (code =? 200)%Z.
Qed.

Lemma schedule_verification_single_timer (w : World) :
  single_timer w → single_timer (schedule_verification w).
Proof.
  intros [H1 H2]. unfold schedule_verification.
  destruct (verification_timer (this w)) as [i|] eqn:Hv;
    unfold single_timer;
    cbn [timers this verification_timer with_this with_timers
         set_verification_timer].
  - split.
    + intros j t Hj Hp. f_equal. rewrite length_alter.
      apply lookup_snoc_Some in Hj as [[Hlt Hj] | [Hlen _]].
      * exfalso. rewrite length_alter in Hlt.
        destruct (decide (i = j)) as [-> | Hne].
        -- rewrite list_lookup_alter_eq in Hj.
           destruct (timers w !! j) as [t0|]; simpl in Hj; [|done].
           injection Hj as <-. unfold Timer_cancel in Hp.
           destruct (status t0) eqn:E; simpl in Hp; congruence.
        -- rewrite list_lookup_alter_ne in Hj by done.
           specialize (H1 j t Hj Hp). congruence.
      * by rewrite length_alter in Hlen.
    + intros i' [= <-]. rewrite length_app, length_alter. simpl. lia.
  - split.
    + intros j t Hj Hp. f_equal.
      apply lookup_snoc_Some in Hj as [[Hlt Hj] | [Hlen _]]; [|done].
      exfalso. specialize (H1 j t Hj Hp). congruence.
    + intros i' [= <-]. rewrite length_app. simpl. lia.
Qed.

Lemma timer_fire_single_timer (net : Transport) (i : nat) (w : World) :
  single_timer w → single_timer (timer_fire net i w).
Proof.
  intros [H1 H2]. unfold timer_fire.
  destruct (timers w !! i) as [t|] eqn:Hi; [|by split].
  destruct (status t) eqn:Hp; try (by split).
  unfold periodic_check.
  apply schedule_verification_single_timer.
  eapply single_timer_same; [apply update_status_label_same_timers|].
  split; cbn [timers this verification_timer with_this with_timers].
  - intros j t' Hj Hp'. exfalso.
    destruct (decide (i = j)) as [-> | Hne].
    + rewrite list_lookup_insert_eq in Hj
        by (by apply lookup_lt_Some in Hi).
      injection Hj as <-. discriminate Hp'.
    + rewrite list_lookup_insert_ne in Hj by done.
      pose proof (H1 i t Hi Hp). pose proof (H1 j t' Hj Hp'). congruence.
  - intros i' Hv. rewrite length_insert. by apply H2.
Qed.

Lemma exec_single_timer (net : Transport) (op : Op) (w : World) :
  single_timer w → single_timer (exec net op w).
Proof.
  intros H. destruct op; simpl.
  - eapply single_timer_same; [|exact H].
    unfold journal_entry. destruct (negb _); [by split|].
    unfold FC.process_event.
    by destruct (FC.should_handle_event entry) as [[]|].
  - eapply single_timer_same; [|exact H].
    unfold worker_iter. destruct (shutting_down _); [by split|].
    destruct (event_queue _) as [|[event|] q]; try (by split).
    match goal with
    | |- context [submit_journal_event net event ?w0] =>
        pose proof (submit_same_timers net event w0) as H1;
        destruct (submit_journal_event net event w0) as [ok w1]
    end.
    simpl in H1. destruct ok; simpl; destruct H1; by split.
  - eapply single_timer_same; [|exact H].
    unfold FC._worker_iter. destruct (fc_shutting_down _); [by split|].
    destruct (fc_queue _) as [|[[entry state]|] q]; try (by split).
    match goal with
    | |- context [FC._handle_event net entry state ?w0] =>
        pose proof (handle_event_same_timers net entry state w0) as H1
    end.
    simpl. destruct H1; by split.
  - by apply timer_fire_single_timer.
  - eapply single_timer_same; [|exact H]. by split.
  - eapply single_timer_same; [|exact H]. by split.
  - unfold plugin_app. apply schedule_verification_single_timer.
    eapply single_timer_same; [apply update_status_label_same_timers|].
    eapply single_timer_same; [|exact H]. by split.
  - eapply single_timer_same; [|exact H].
    unfold save_api_key. destruct (negb _); [by split|].
    match goal with
    | |- context [verify_api_key net api_key ?w0] =>
        pose proof (verify_same_timers net api_key w0) as H1;
        destruct (verify_api_key net api_key w0) as [ok w1]
    end.
    simpl in *.
    apply (same_timers_trans _ w1); [by destruct H1; split|].
    apply update_status_label_same_timers.
  - eapply single_timer_same; [|exact H]. simpl.
    eapply same_timers_trans; [|apply update_status_label_same_timers].
    by split.
  - eapply single_timer_same; [|exact H]. by split.
  - eapply single_timer_same; [apply submit_same_timers|exact H].
  - eapply single_timer_same; [apply handle_event_same_timers|exact H].
  - eapply single_timer_same; [apply verify_same_timers|exact H].
  - eapply single_timer_same; [apply update_status_label_same_timers|exact H].
  - by apply schedule_verification_single_timer.
Qed.

Lemma run_single_timer (net : Transport) (ops : list Op) (w : World) :
  single_timer w → single_timer (run net ops w).
Proof.
  revert w. induction ops as [|op ops IH]; intros w H; [done|].
  simpl. by apply IH, exec_single_timer.
Qed.

(** X7. Through every run of the plugin from its start at most one
    verification timer is pending, and it is the one that
    [verification_timer] refers to: arming a new timer cancels the one
    before, and a timer that fires arms exactly one successor. *)
Theorem one_pending_timer (net : Transport) (cfg : gmap string string)
  (ops : list Op) :
  ∀ i j ti tj,
    timers (run net ops (World_init cfg)) !! i = Some ti →
    timers (run net ops (World_init cfg)) !! j = Some tj →
    status ti = Pending → status tj = Pending →
    i = j
    ∧ verification_timer (this (run net ops (World_init cfg))) = Some i.
Proof.
  intros i j ti tj Hi Hj Hpi Hpj.
  destruct (run_single_timer net ops (World_init cfg)) as [H1 _].
  { split; [intros ? ? [=]|intros ? [=]]. }
  pose proof (H1 i ti Hi Hpi). pose proof (H1 j tj Hj Hpj).
  split; congruence.
Qed.

Lemma one_pending_timer_witness :
  verification_timer
    (this (run (net_const (reply_valid 200 (VBool true)))
             [OPluginApp; OTimerFire 0; OTimerFire 1; OPluginApp]
             (World_init cfg_key))) = Some 3%nat.
Proof.
  apply (one_pending_timer (net_const (reply_valid 200 (VBool true)))
           cfg_key [OPluginApp; OTimerFire 0; OTimerFire 1; OPluginApp]
           3%nat 3%nat
           {| interval := 600; daemon := true; status := Pending |}
           {| interval := 600; daemon := true; status := Pending |});
    vm_compute; reflexivity.
Defined.

(** ** The status label and the key *)

Lemma verify_api_key_snd (net : Transport) (k : string) (w : World) :
  config (snd (verify_api_key net k w)) = config w
  ∧ status_label (this (snd (verify_api_key net k w)))
    = status_label (this w)
  ∧ trace (snd (verify_api_key net k w))
    = trace w ++ [ESend (verify_call k)].
Proof.
  unfold verify_api_key.
  destruct (net _ _) as [code [[| | | | | |result]|]|]; by repeat split.
Qed.

Lemma texts_differ : CONNECTED_TEXT ≠ DISCONNECTED_TEXT.
Proof. discriminate. Qed.

(** X8. [update_status_label] does nothing without a label.  With a
    label and a key it verifies once, and the label then says connected
    exactly when the connection state reads true; with a label and no
    key it writes the disconnected text without a call and leaves the
    connection state as it was, true or not. *)
Theorem update_status_label_agrees (net : Transport) (w : World) :
  (status_label (this w) = None → update_status_label net w = w)
  ∧ (is_Some (status_label (this w)) →
     str_truthy (get_str (config w) "edsts_api_key") = true →
     (status_label (this (update_status_label net w)) = Some CONNECTED_TEXT
      ↔ truthy (connected (update_status_label net w)) = true)
     ∧ (status_label (this (update_status_label net w))
        = Some DISCONNECTED_TEXT
        ↔ truthy (connected (update_status_label net w)) = false)
     ∧ trace (update_status_label net w)
       = trace w
         ++ [ESend (verify_call
                      (default "" (get_str (config w) "edsts_api_key")))])
  ∧ (is_Some (status_label (this w)) →
     str_truthy (get_str (config w) "edsts_api_key") = false →
     status_label (this (update_status_label net w))
     = Some DISCONNECTED_TEXT
     ∧ trace (update_status_label net w) = trace w
     ∧ connected (update_status_label net w) = connected w).
Proof.
  unfold update_status_label. split; [|split].
  - by intros ->.
  - intros [l Hl] Hk. rewrite Hl, Hk. simpl.
    set (k := default "" (get_str (config w) "edsts_api_key")).
    pose proof (verify_api_key_connected net k w) as Hc.
    pose proof (verify_api_key_snd net k w) as (_ & _ & Ht).
    destruct (verify_api_key net k w) as [v w1]. simpl in Hc, Ht.
    simpl. rewrite Ht. unfold connected in *. simpl. rewrite Hc.
    destruct (truthy v); repeat split; try done; intros [=].
  - intros [l Hl] Hk. rewrite Hl, Hk. by simpl.
Qed.

Lemma update_status_label_agrees_witness :
  status_label
    (this (update_status_label (net_const (reply_valid 200 (VStr "True")))
             (with_this (set_status_label (Some DISCONNECTED_TEXT))
                (World_init cfg_key)))) = Some CONNECTED_TEXT.
Proof.
  apply (proj1 (proj2 (update_status_label_agrees
                         (net_const (reply_valid 200 (VStr "True")))
                         (with_this
                            (set_status_label (Some DISCONNECTED_TEXT))
                            (World_init cfg_key))))).
  - by eexists.
  - reflexivity.
  - reflexivity.
Defined.

Lemma update_status_label_config (net : Transport) (w : World) :
  config (update_status_label net w) = config w.
Proof.
  unfold update_status_label.
  destruct (status_label _); [|done].
  destruct (negb _); [done|].
  pose proof (verify_api_key_snd net
                (default "" (get_str (config w) "edsts_api_key")) w)
    as (H & _).
  by destruct (verify_api_key _ _ _) as [v w1].
Qed.

Lemma update_status_label_effect (net : Transport) (w : World) :
  (status_label (this w) = None → update_status_label net w = w)
  ∧ (is_Some (status_label (this w)) →
     str_truthy (get_str (config w) "edsts_api_key") = true →
     trace (update_status_label net w)
     = trace w
       ++ [ESend (verify_call
                    (default "" (get_str (config w) "edsts_api_key")))])
  ∧ (is_Some (status_label (this w)) →
     str_truthy (get_str (config w) "edsts_api_key") = false →
     status_label (this (update_status_label net w))
     = Some DISCONNECTED_TEXT
     ∧ trace (update_status_label net w) = trace w
     ∧ connected (update_status_label net w) = connected w).
Proof.
  unfold update_status_label. split; [|split].
  - by intros ->.
  - intros [l Hl] Hk. rewrite Hl, Hk. simpl.
    pose proof (verify_api_key_snd net
                  (default "" (get_str (config w) "edsts_api_key")) w)
      as (_ & _ & Ht).
    by destruct (verify_api_key _ _ _) as [v w1].
  - intros [l Hl] Hk. rewrite Hl, Hk. by simpl.
Qed.

(** X9. [save_api_key] refuses an empty key and changes nothing.  A
    non-empty key is stored before it is verified and stays stored also
    when the verification fails; the text reports the verdict of that
    verification; one verification is sent, and a second one when the
    status label exists. *)
Theorem save_api_key_stores (net : Transport) (api_key : string)
  (w : World) :
  (PyStr.nonempty api_key = false →
   save_api_key net api_key w = ("Please enter an API key", w))
  ∧ (PyStr.nonempty api_key = true →
     get_str (config (snd (save_api_key net api_key w))) "edsts_api_key"
     = Some api_key
     ∧ fst (save_api_key net api_key w)
       = (if truthy (verdict (net (length (trace w))
                                (verify_call api_key)))
          then "API Key verified and saved" else "Invalid API Key")
     ∧ sends (trace (snd (save_api_key net api_key w)))
       = (sends (trace w)
          + match status_label (this w) with
            | Some _ => 2
            | None => 1
            end)%nat).
Proof.
  unfold save_api_key. split; intros Hne; rewrite Hne; [done|]. simpl.
  set (w0 := with_config (<["edsts_api_key" := api_key]>) w).
  pose proof (verify_api_key_fst net api_key w0) as Hv.
  pose proof (verify_api_key_snd net api_key w0) as (Hc & Hl & Ht).
  destruct (verify_api_key net api_key w0) as [ok w1].
  cbn [fst snd] in *.
  assert (Hk : get_str (config w1) "edsts_api_key" = Some api_key).
  { rewrite Hc. unfold get_str, w0. simpl. apply lookup_insert_eq. }
  split; [|split].
  - by rewrite update_status_label_config.
  - by rewrite Hv.
  - destruct (update_status_label_effect net w1) as (Hnone & Hsome & _).
    change (status_label (this w0)) with (status_label (this w)) in Hl.
    change (trace w0) with (trace w) in Ht.
    destruct (status_label (this w)) as [l|] eqn:El.
    + rewrite Hsome, Ht, !sends_snoc;
        [simpl; lia | rewrite Hl; by eexists | rewrite Hk; exact Hne].
    + rewrite (Hnone Hl), Ht, sends_snoc. simpl. lia.
Qed.

Lemma save_api_key_stores_witness :
  get_str (config (snd (save_api_key (net_const (reply_valid 200
                                                   (VBool false)))
                          "bad" (World_init ∅))))
    "edsts_api_key" = Some "bad".
Proof.
  apply (proj2 (save_api_key_stores (net_const (reply_valid 200
                                                  (VBool false)))
                  "bad" (World_init ∅))).
  reflexivity.
Defined.

(** X10. [clear_api_key] removes the key without a call and without
    touching the connection state; the label, when there is one, says
    disconnected.  Afterwards neither profile sends anything:
    [submit_journal_event] returns [False] and [_handle_event] returns at
    once. *)
Theorem clear_api_key_silences (net : Transport) (w : World) :
  get_str (config (snd (clear_api_key net w))) "edsts_api_key" = None
  ∧ trace (snd (clear_api_key net w)) = trace w
  ∧ connected (snd (clear_api_key net w)) = connected w
  ∧ (is_Some (status_label (this w)) →
     status_label (this (snd (clear_api_key net w)))
     = Some DISCONNECTED_TEXT)
  ∧ ∀ event state,
      submit_journal_event net event (snd (clear_api_key net w))
      = (false, snd (clear_api_key net w))
      ∧ FC._handle_event net event state (snd (clear_api_key net w))
        = (event, snd (clear_api_key net w)).
Proof.
  unfold clear_api_key. cbn [snd].
  set (w0 := with_config (delete "edsts_api_key") w).
  assert (Hk0 : get_str (config w0) "edsts_api_key" = None)
    by apply lookup_delete_eq.
  destruct (update_status_label_effect net w0) as (Hnone & _ & Hsome).
  assert (Hk : get_str (config (update_status_label net w0))
                 "edsts_api_key" = None)
    by (by rewrite update_status_label_config).
  assert (H : trace (update_status_label net w0) = trace w
              ∧ connected (update_status_label net w0) = connected w
              ∧ (is_Some (status_label (this w)) →
                 status_label (this (update_status_label net w0))
                 = Some DISCONNECTED_TEXT)).
  { destruct (status_label (this w)) as [l|] eqn:El.
    - destruct Hsome as (H1 & H2 & H3); [by exists l|by rewrite Hk0|].
      by repeat split.
    - rewrite Hnone by done. repeat split. by intros [? ?]. }
  destruct H as (H1 & H2 & H3).
  repeat split; try done.
  - unfold submit_journal_event. rewrite Hk. simpl.
    by destruct (negb (truthy _)).
  - unfold FC._handle_event. by rewrite Hk.
Qed.

(** ** From ingestion to delivery *)

Lemma journal_entry_accepts (cmdr : string) (is_beta : bool)
  (system station name : string) (entry state : gmap string PyVal)
  (w : World) :
  truthy (connected w) = true →
  entry !! "event" = Some (VStr name) →
  name ∈ FC_EVENTS →
  journal_entry cmdr is_beta system station entry state w
  = (Ok None,
     with_this (with_fc_worker (fun f =>
       set_fc_queue (fc_queue f ++ [Some (entry, state)]) f)) w).
Proof.
  intros Hc He Hn. unfold journal_entry. rewrite Hc. simpl.
  unfold FC.process_event, FC.should_handle_event, dict_get.
  rewrite He. simpl. by rewrite bool_decide_eq_true_2.
Qed.

(** X11. End to end: with the state connected, a key configured and the
    worker's queue empty, an accepted event that comes in is queued
    without any call by [journal_entry], and the next turn of the
    fleet-carrier worker sends exactly one POST for it: to the journal
    endpoint of the worker, with the key, the bare permission header, a
    timeout of 10 and the enriched event as its body. *)
Theorem ingestion_to_delivery (net : Transport) (cmdr : string)
  (is_beta : bool) (system station name k : string)
  (entry state : gmap string PyVal) (w : World)
  (Hc : truthy (connected w) = true)
  (He : entry !! "event" = Some (VStr name))
  (Hn : name ∈ FC_EVENTS)
  (Hk : get_str (config w) "edsts_api_key" = Some k)
  (Hne : PyStr.nonempty k = true)
  (Hs : fc_shutting_down (fc_worker (this w)) = false)
  (Hq : the_fc_queue w = []) :
  let w1 := snd (journal_entry cmdr is_beta system station entry state w) in
  let w2 := snd (FC._worker_iter net w1) in
  fst (journal_entry cmdr is_beta system station entry state w) = Ok None
  ∧ trace w1 = trace w
  ∧ the_fc_queue w1 = [Some (entry, state)]
  ∧ fst (FC._worker_iter net w1) = Running
  ∧ the_fc_queue w2 = []
  ∧ trace w2
    = trace w
      ++ [ EGetFC (Some (entry, state));
           ESend {| method := "POST";
                    url := fc_journal_endpoint (fc_worker (this w));
                    params := [];
                    headers := [ ("Content-Type", "application/json");
                                 ("x-api-key", k);
                                 ("x-permissions", "EDStS") ];
                    json := Some (FC.enrich entry state);
                    timeout := 10 |} ].
Proof.
  intros w1 w2. subst w1 w2.
  rewrite (journal_entry_accepts cmdr is_beta system station name entry
             state w Hc He Hn).
  cbn [fst snd]. unfold the_fc_queue in *.
  split; [done|]. split; [done|].
  split; [cbn; by rewrite Hq|].
  unfold FC._worker_iter. cbn. rewrite Hs, Hq. cbn.
  match goal with
  | |- context [FC._handle_event net entry state ?w0] =>
      rewrite (handle_event_with_key net entry state w0 k Hk Hne)
  end.
  cbn. repeat split. by rewrite <- app_assoc.
Qed.

Lemma ingestion_to_delivery_witness :
  sends (trace (snd (FC._worker_iter (net_const (Reply 200 None))
                       (snd (journal_entry "cmdr" false "Sol" "" docked aux
                               (connected_world cfg_key)))))) = 1%nat.
Proof.
  pose proof (ingestion_to_delivery (net_const (Reply 200 None)) "cmdr"
                false "Sol" "" "Docked" "k" docked aux
                (connected_world cfg_key) eq_refl
                ltac:(vm_compute; reflexivity)
                ltac:(apply (bool_decide_eq_true_1 _); vm_compute;
                      reflexivity)
                ltac:(vm_compute; reflexivity) eq_refl eq_refl eq_refl)
    as (_ & _ & _ & _ & _ & H).
  cbv zeta in H. rewrite H. reflexivity.
Defined.

(** X12. Events are lost without a trace when the state is connected
    but no key is configured (as after [clear_api_key]): an accepted
    event is queued, and the worker takes it from the queue and returns
    from [_handle_event] without a call. *)
Theorem ingestion_without_key_drops (net : Transport) (cmdr : string)
  (is_beta : bool) (system station name : string)
  (entry state : gmap string PyVal) (w : World)
  (Hc : truthy (connected w) = true)
  (He : entry !! "event" = Some (VStr name))
  (Hn : name ∈ FC_EVENTS)
  (Hk : str_truthy (get_str (config w) "edsts_api_key") = false)
  (Hs : fc_shutting_down (fc_worker (this w)) = false)
  (Hq : the_fc_queue w = []) :
  let w1 := snd (journal_entry cmdr is_beta system station entry state w) in
  let w2 := snd (FC._worker_iter net w1) in
  the_fc_queue w1 = [Some (entry, state)]
  ∧ fst (FC._worker_iter net w1) = Running
  ∧ the_fc_queue w2 = []
  ∧ event_queue (this w2) = event_queue (this w)
  ∧ trace w2 = trace w ++ [EGetFC (Some (entry, state))].
Proof.
  intros w1 w2. subst w1 w2.
  rewrite (journal_entry_accepts cmdr is_beta system station name entry
             state w Hc He Hn).
  cbn [fst snd]. unfold the_fc_queue in *.
  split; [cbn; by rewrite Hq|].
  unfold FC._worker_iter. cbn. rewrite Hs, Hq. cbn.
  match goal with
  | |- context [FC._handle_event net entry state ?w0] =>
      replace (FC._handle_event net entry state w0) with (entry, w0)
        by (unfold FC._handle_event; change (config w0) with (config w);
            by rewrite Hk)
  end.
  cbn. by repeat split.
Qed.

Lemma ingestion_without_key_drops_witness :
  trace (snd (FC._worker_iter (net_const (Reply 200 None))
                (snd (journal_entry "cmdr" false "Sol" "" docked aux
                        (connected_world ∅)))))
  = [EGetFC (Some (docked, aux))].
Proof.
  pose proof (ingestion_without_key_drops (net_const (Reply 200 None))
                "cmdr" false "Sol" "" "Docked" docked aux
                (connected_world ∅) eq_refl
                ltac:(vm_compute; reflexivity)
                ltac:(apply (bool_decide_eq_true_1 _); vm_compute;
                      reflexivity)
                eq_refl eq_refl eq_refl)
    as (_ & _ & _ & _ & H).
  exact H.
Defined.

(** X13. An entry whose [event] field is a list or an object makes
    [journal_entry] raise [TypeError] to the host when the state is
    connected, since the membership test hashes it; nothing is queued.
    While the state is disconnected the same entry returns [None]. *)
Theorem journal_entry_unhashable (cmdr : string) (is_beta : bool)
  (system station : string) (entry state : gmap string PyVal)
  (v : PyVal) (w : World)
  (He : entry !! "event" = Some v)
  (Hv : (∃ l, v = VList l) ∨ (∃ d, v = VDict d)) :
  journal_entry cmdr is_beta system station entry state w
  = (if truthy (connected w) then Exn "TypeError" else Ok None, w).
Proof.
  unfold journal_entry.
  destruct (truthy (connected w)); simpl; [|done].
  unfold FC.process_event, FC.should_handle_event, dict_get. rewrite He.
  by destruct Hv as [[l ->] | [d ->]].
Qed.

Lemma journal_entry_unhashable_witness :
  journal_entry "cmdr" false "Sol" "" {[ "event" := VList [] ]} aux
    (connected_world cfg_key)
  = (Exn "TypeError", connected_world cfg_key).
Proof.
  apply (journal_entry_unhashable "cmdr" false "Sol" ""
           {[ "event" := VList [] ]} aux (VList [])
           (connected_world cfg_key)).
  - vm_compute. reflexivity.
  - left. by exists [].
Defined.

(** ** Activity check *)

(** X14. [check_api_activity] answers [True] exactly when a non-empty
    key is configured and the verification endpoint answers with status
    200, whatever the body says; without a key it makes no call; it
    never writes the state of the plugin. *)
Theorem check_api_activity_status (net : Transport) (w : World) :
  (fst (check_api_activity net w) = true ↔
   ∃ k body,
     get_str (config w) "edsts_api_key" = Some k
     ∧ PyStr.nonempty k = true
     ∧ net (length (trace w)) (verify_call k) = Reply 200 body)
  ∧ (str_truthy (get_str (config w) "edsts_api_key") = false →
     check_api_activity net w = (false, w))
  ∧ this (snd (check_api_activity net w)) = this w
  ∧ config (snd (check_api_activity net w)) = config w
  ∧ timers (snd (check_api_activity net w)) = timers w.
Proof.
  unfold check_api_activity.
  destruct (get_str (config w) "edsts_api_key") as [k|] eqn:Hk; simpl.
  2:{ repeat split; try done. by intros (? & ? & ? & _). }
  destruct (PyStr.nonempty k) eqn:Hne; simpl.
  2:{ repeat split; try done. intros (? & ? & [= <-] & ? & _). congruence. }
  destruct (net _ _) as [code body|] eqn:Hr; simpl.
  - repeat split; try done.
    + intros ->%Z.eqb_eq. by exists k, body.
    + intros (k' & body' & [= <-] & _ & E). simpl in Hr.
      rewrite Hr in E. by injection E as ->.
  - repeat split; try done. intros (k' & body' & [= <-] & _ & E).
    simpl in Hr. congruence.
Qed.

(** ** The permission header, read back *)

Lemma lstrip_trimmed (t : string) :
  (∀ c, PyStr.first t = Some c → PyStr.isspace c = false) →
  PyStr.lstrip t = t.
Proof.
  destruct t as [|c r]; simpl; [done|].
  intros H. by rewrite (H c eq_refl).
Qed.

Lemma rstrip_trimmed (t : string) :
  (∀ c, PyStr.last t = Some c → PyStr.isspace c = false) →
  PyStr.rstrip t = t.
Proof.
  induction t as [|c r IH]; [done|].
  destruct r as [|d r'].
  - intros H. simpl. by rewrite (H c eq_refl).
  - intros H.
    change (PyStr.rstrip (String c (String d r')))
      with (match PyStr.rstrip (String d r') with
            | EmptyString =>
                if PyStr.isspace c then EmptyString
                else String c EmptyString
            | r0 => String c r0
            end).
    by rewrite (IH H).
Qed.

Lemma strip_trimmed (t : string) : trimmed_tag t → PyStr.strip t = t.
Proof.
  intros (_ & Hf & Hl & _). unfold PyStr.strip.
  by rewrite (lstrip_trimmed t Hf), (rstrip_trimmed t Hl).
Qed.

(** X15. Round trip of the permission header: split at its commas, the
    header of the general profile gives the name space tag followed by
    the tags of the configured string, each trimmed, the blank ones left
    out, in their order.  When the configured string is not empty but
    holds no tag, one empty tag follows the name space tag. *)
Theorem permission_header_splits (cfg : gmap string string) :
  PyStr.split comma (get_permissions_header cfg)
  = match get_str cfg "edsts_user_permissions" with
    | None | Some EmptyString => ["EDStS"]
    | Some user_perm =>
        "EDStS" :: match permission_tags user_perm with
                   | [] => [EmptyString]
                   | tags => tags
                   end
    end.
Proof.
  unfold get_permissions_header.
  destruct (get_str cfg "edsts_user_permissions") as [[|a r]|];
    [reflexivity| |reflexivity].
  cbn [str_truthy PyStr.nonempty String.length Nat.eqb negb default].
  set (up := String a r).
  change (PyStr.split comma
            ("EDStS" ++ String comma
                          (PyStr.join "," (permission_tags up)))%string
          = "EDStS" :: match permission_tags up with
                       | [] => [EmptyString]
                       | tags => tags
                       end).
  rewrite split_app_sep by reflexivity. f_equal.
  destruct (permission_tags up) as [|t ts] eqn:E; [reflexivity|].
  apply (split_join comma); [done|].
  rewrite <- E. apply permission_tags_no_comma.
Qed.

(** X16. Normalising is idempotent: the tags of the comma-joined tags
    of a string are those tags again, so a header made from a header's
    own tags carries the same tags. *)
Theorem permission_tags_idempotent (user_perm : string) :
  permission_tags (PyStr.join "," (permission_tags user_perm))
  = permission_tags user_perm.
Proof.
  destruct (permission_tags user_perm) as [|t ts] eqn:E; [reflexivity|].
  pose proof (permission_tags_trimmed user_perm) as HT.
  pose proof (permission_tags_no_comma user_perm) as HC.
  rewrite E in HT, HC.
  unfold permission_tags at 1.
  replace (PyStr.split comma (PyStr.join "," (t :: ts))) with (t :: ts)
    by (symmetry; by apply (split_join comma)).
  clear E. induction HT as [|x l Hx HT IH]; [reflexivity|].
  inversion HC as [|? ? _ HC']; subst.
  rewrite fmap_cons, (strip_trimmed x Hx), filter_cons.
  destruct Hx as (Hne & _).
  destruct (decide (Is_true (PyStr.nonempty x))) as [_ | Hn].
  - f_equal. by apply IH.
  - exfalso. apply Hn. by destruct x.
Qed.

(** ** Enrichment and the permissions that are saved *)

(** X17. Enrichment is idempotent, and it leaves an event as it is
    when the auxiliary state has neither value or only values that are
    false in Python, such as the ship number 0. *)
Theorem enrich_idempotent (entry state : gmap string PyVal) :
  FC.enrich (FC.enrich entry state) state = FC.enrich entry state
  ∧ (truthy (dict_get state "ShipID") = false →
     truthy (dict_get state "SystemAddress") = false →
     FC.enrich entry state = entry)
  ∧ FC.enrich entry (<["ShipID" := VInt 0]> ∅) = entry.
Proof.
  split; [|split].
  - apply map_eq. intros k. rewrite !enrich_lookup.
    repeat case_decide; try done;
      by destruct (truthy (dict_get state _)).
  - intros H1 H2. unfold FC.enrich. by rewrite H1, H2.
  - reflexivity.
Qed.

Lemma journal_post_headers (k : string) (cfg : gmap string string)
  (event : gmap string PyVal) :
  header (journal_post k cfg event) "x-permissions"
  = Some (get_permissions_header cfg)
  ∧ header (journal_post k cfg event) "x-api-key" = Some k.
Proof. split; reflexivity. Qed.

(** X18. [save_user_permissions] stores the string without a call and
    without touching the key, and the very next submission of the
    general profile carries the header made from it: the permissions are
    read anew for every submission. *)
Theorem saved_permissions_are_sent (net : Transport)
  (permissions : string) (event : gmap string PyVal) (w : World) :
  let w' := snd (save_user_permissions permissions w) in
  get_str (config w') "edsts_user_permissions" = Some permissions
  ∧ get_str (config w') "edsts_api_key"
    = get_str (config w) "edsts_api_key"
  ∧ trace w' = trace w
  ∧ this w' = this w
  ∧ ∀ c, trace (snd (submit_journal_event net event w'))
         = trace w' ++ [ESend c] →
      header c "x-permissions"
      = Some (if PyStr.nonempty permissions
              then ("EDStS,"
                    ++ PyStr.join "," (permission_tags permissions))%string
              else "EDStS")
      ∧ header c "x-api-key" = get_str (config w) "edsts_api_key".
Proof.
  cbn zeta. unfold save_user_permissions. cbn [snd].
  set (w' := with_config (<["edsts_user_permissions" := permissions]>) w).
  assert (Hp : get_str (config w') "edsts_user_permissions"
               = Some permissions) by apply lookup_insert_eq.
  assert (Hk : get_str (config w') "edsts_api_key"
               = get_str (config w) "edsts_api_key")
    by (by apply lookup_insert_ne).
  repeat split; try done.
  - destruct (submit_journal_event_trace net event w')
      as [E | (k & Hk' & E)]; rewrite E in H.
    + exfalso. apply (f_equal length) in H. rewrite length_app in H.
      simpl in H. lia.
    + apply app_inv_head in H. injection H as <-.
      etransitivity; [apply (proj1 (journal_post_headers _ _ _))|].
      f_equal. unfold get_permissions_header, get_str.
      rewrite lookup_insert_eq. reflexivity.
  - destruct (submit_journal_event_trace net event w')
      as [E | (k & Hk' & E)]; rewrite E in H.
    + exfalso. apply (f_equal length) in H. rewrite length_app in H.
      simpl in H. lia.
    + apply app_inv_head in H. injection H as <-.
      etransitivity; [apply (proj2 (journal_post_headers _ _ _))|].
      by rewrite <- Hk, Hk'.
Qed.

(** ** Order of ingestion *)

Lemma journal_entry_queue (cmdr : string) (is_beta : bool)
  (system station : string) (item : gmap string PyVal * gmap string PyVal)
  (w : World) :
  truthy (connected w) = true →
  let w' := snd (journal_entry cmdr is_beta system station
                   (fst item) (snd item) w) in
  the_fc_queue w'
  = the_fc_queue w ++ (if fc_accepts item then [Some item] else [])
  ∧ connected w' = connected w.
Proof.
  intros Hc. cbn zeta. unfold journal_entry, fc_accepts. rewrite Hc. simpl.
  unfold FC.process_event.
  destruct (FC.should_handle_event item.1) as [[]|]; simpl;
    rewrite ?app_nil_r; try done.
  by destruct item.
Qed.

(** X19. While the state is connected, a sequence of incoming events
    leaves in the queue of the fleet-carrier worker, behind what was
    there, exactly the accepted ones with their auxiliary states, in the
    order in which they came in; the refused ones, and those whose filter
    raises, leave nothing. *)
Theorem ingestion_keeps_order (cmdr : string) (is_beta : bool)
  (system station : string)
  (items : list (gmap string PyVal * gmap string PyVal)) (w : World)
  (Hc : truthy (connected w) = true) :
  the_fc_queue (ingest cmdr is_beta system station items w)
  = the_fc_queue w
    ++ (Some <$> List.filter fc_accepts items)
  ∧ event_queue (this (ingest cmdr is_beta system station items w))
    = event_queue (this w)
  ∧ trace (ingest cmdr is_beta system station items w) = trace w.
Proof.
  revert w Hc. induction items as [|item items IH]; intros w Hc.
  - simpl. by rewrite app_nil_r.
  - change (ingest cmdr is_beta system station (item :: items) w)
      with (ingest cmdr is_beta system station items
              (snd (journal_entry cmdr is_beta system station
                      item.1 item.2 w))).
    destruct (journal_entry_queue cmdr is_beta system station item w Hc)
      as [Hq Hc'].
    destruct (journal_entry_frame cmdr is_beta system station
                item.1 item.2 w) as (He & Ht & _).
    set (w1 := snd (journal_entry cmdr is_beta system station
                      item.1 item.2 w)) in *.
    destruct (IH w1) as (H1 & H2 & H3); [by rewrite Hc'|].
    rewrite H1, H2, H3, Hq, He, Ht. repeat split.
    rewrite <- app_assoc. f_equal.
    simpl. by destruct (fc_accepts item).
Qed.

Lemma ingestion_keeps_order_witness :
  the_fc_queue
    (ingest "cmdr" false "Sol" ""
       [ (docked, aux); ({[ "event" := VStr "Music" ]}, aux);
         (docked_with_ship, ∅) ]
       (connected_world cfg_key))
  = [Some (docked, aux); Some (docked_with_ship, ∅)].
Proof.
  etransitivity.
  - apply (ingestion_keeps_order "cmdr" false "Sol" ""
             [ (docked, aux); ({[ "event" := VStr "Music" ]}, aux);
               (docked_with_ship, ∅) ]
             (connected_world cfg_key) eq_refl).
  - vm_compute. reflexivity.
Defined.

(** ** The timer, fired *)

(** X20. A pending timer that fires is marked as fired and arms one
    successor of [CHECK_INTERVAL], to which [verification_timer] then
    refers; a timer that was cancelled, or has fired already, or does not
    exist, does nothing at all when its interval has passed. *)
Theorem timer_fire_rearms (net : Transport) (i : nat) (w : World) :
  (∀ t, timers w !! i = Some t → status t = Pending →
     length (timers (timer_fire net i w)) = S (length (timers w))
     ∧ status <$> timers (timer_fire net i w) !! i = Some Fired
     ∧ timers (timer_fire net i w) !! length (timers w)
       = Some {| interval := CHECK_INTERVAL; daemon := true;
                 status := Pending |}
     ∧ verification_timer (this (timer_fire net i w))
       = Some (length (timers w)))
  ∧ ((∀ t, timers w !! i = Some t → status t ≠ Pending) →
     timer_fire net i w = w).
Proof.
  unfold timer_fire. split.
  - intros t Hi Hp. rewrite Hi, Hp.
    pose proof (lookup_lt_Some _ _ _ Hi) as Hlt.
    set (fired := {| interval := interval t; daemon := daemon t;
                     status := Fired |}).
    set (w0 := with_timers (<[i := fired]>) w).
    unfold periodic_check.
    destruct (update_status_label_same_timers net w0) as [Ht Hv].
    set (w1 := update_status_label net w0) in *.
    assert (Hlen : length (timers w1) = length (timers w)).
    { rewrite Ht. unfold w0. cbn [timers with_timers].
      by rewrite length_insert. }
    assert (Hi1 : timers w1 !! i = Some fired).
    { rewrite Ht. unfold w0. cbn [timers with_timers].
      by apply list_lookup_insert_eq. }
    unfold schedule_verification.
    destruct (verification_timer (this w1)) as [j|];
      cbn [timers this verification_timer with_this with_timers
           set_verification_timer].
    + rewrite length_app, !length_alter, Hlen. split; [simpl; lia|].
      split; [|split].
      * rewrite lookup_app_l by (rewrite length_alter; lia).
        rewrite list_lookup_alter. case_decide; subst; rewrite Hi1; done.
      * rewrite <- Hlen, <- (length_alter Timer_cancel (timers w1) j) at 1.
        by rewrite list_lookup_middle.
      * done.
    + rewrite length_app, Hlen. split; [simpl; lia|].
      split; [|split].
      * rewrite lookup_app_l by lia. by rewrite Hi1.
      * rewrite <- Hlen. by rewrite list_lookup_middle.
      * done.
  - intros H. destruct (timers w !! i) as [t|] eqn:Hi; [|done].
    specialize (H t eq_refl). by destruct (status t).
Qed.

(** ** What a verification leaves alone *)

(** X21. [verify_api_key] sends exactly one request, a GET of the
    verification endpoint with the key it was given as the [key]
    parameter and a timeout of 5, also when that key differs from the
    configured one or the state is disconnected; it changes the
    connection flag and nothing else. *)
Theorem verify_api_key_frame (net : Transport) (api_key : string)
  (w : World) :
  trace (snd (verify_api_key net api_key w))
  = trace w
    ++ [ESend {| method := "GET";
                 url := "https://edsts.7thseraph.org/api/auth/verify";
                 params := [("key", api_key)]; headers := [];
                 json := None; timeout := 5 |}]
  ∧ config (snd (verify_api_key net api_key w)) = config w
  ∧ timers (snd (verify_api_key net api_key w)) = timers w
  ∧ this (snd (verify_api_key net api_key w))
    = set_is_connected (fst (verify_api_key net api_key w)) (this w).
Proof.
  unfold verify_api_key.
  destruct (net _ _) as [code [[| | | | | |result]|]|]; by repeat split.
Qed.

(** ** The main window *)

Lemma schedule_verification_arms (w : World) :
  length (timers (schedule_verification w)) = S (length (timers w))
  ∧ timers (schedule_verification w) !! length (timers w)
    = Some {| interval := CHECK_INTERVAL; daemon := true;
              status := Pending |}
  ∧ verification_timer (this (schedule_verification w))
    = Some (length (timers w))
  ∧ trace (schedule_verification w) = trace w
  ∧ config (schedule_verification w) = config w
  ∧ status_label (this (schedule_verification w)) = status_label (this w)
  ∧ connected (schedule_verification w) = connected w.
Proof.
  unfold schedule_verification.
  destruct (verification_timer (this w)) as [j|];
    cbn [timers this verification_timer with_this with_timers
         set_verification_timer trace config status_label connected
         connection_state].
  - rewrite length_app, !length_alter. repeat split; [simpl; lia|].
    rewrite <- (length_alter Timer_cancel (timers w) j) at 1.
    by rewrite list_lookup_middle.
  - rewrite length_app. repeat split; [simpl; lia|].
    by rewrite list_lookup_middle.
Qed.

(** X22. [plugin_app] always leaves a status label with a text and one
    newly armed timer of [CHECK_INTERVAL], to which [verification_timer]
    refers.  With a key configured it verifies exactly once; without a key
    it makes no call and the label says disconnected. *)
Theorem plugin_app_arms (net : Transport) (w : World) :
  is_Some (status_label (this (plugin_app net w)))
  ∧ length (timers (plugin_app net w)) = S (length (timers w))
  ∧ timers (plugin_app net w) !! length (timers w)
    = Some {| interval := CHECK_INTERVAL; daemon := true;
              status := Pending |}
  ∧ verification_timer (this (plugin_app net w))
    = Some (length (timers w))
  ∧ config (plugin_app net w) = config w
  ∧ (str_truthy (get_str (config w) "edsts_api_key") = true →
     trace (plugin_app net w)
     = trace w
       ++ [ESend (verify_call
                    (default "" (get_str (config w) "edsts_api_key")))])
  ∧ (str_truthy (get_str (config w) "edsts_api_key") = false →
     trace (plugin_app net w) = trace w
     ∧ status_label (this (plugin_app net w)) = Some DISCONNECTED_TEXT
     ∧ connected (plugin_app net w) = connected w).
Proof.
  unfold plugin_app.
  set (w0 := with_this (set_status_label (Some DISCONNECTED_TEXT)) w).
  destruct (update_status_label_same_timers net w0) as [Ht Hv].
  destruct (update_status_label_effect net w0) as (_ & Hk1 & Hk0).
  pose proof (update_status_label_config net w0) as Hc.
  assert (Hl : is_Some (status_label (this (update_status_label net w0)))).
  { unfold update_status_label. cbn [w0 with_this this set_status_label
                                      status_label].
    destruct (negb _); [by eexists|].
    destruct (verify_api_key _ _ _) as [v w1]. by eexists. }
  set (w1 := update_status_label net w0) in *.
  destruct (schedule_verification_arms w1)
    as (H1 & H2 & H3 & H4 & H5 & H6 & H7).
  change (timers w0) with (timers w) in Ht.
  rewrite Ht in H1, H2, H3.
  split; [by rewrite H6|]. split; [done|]. split; [done|]. split; [done|].
  split; [by rewrite H5, Hc|]. split.
  - intros Hk. rewrite H4. apply Hk1; [by eexists|exact Hk].
  - intros Hk. rewrite H4, H6, H7.
    destruct Hk0 as (E1 & E2 & E3); [by eexists|exact Hk|].
    by repeat split.
Qed.

(** ** The verification timer and the stop *)

(** What [schedule_verification] does to a timer that exists: it cancels
    the one that [verification_timer] refers to and leaves the others. *)
Lemma schedule_verification_lookup (w : World) (j : nat) (t : Timer) :
  timers w !! j = Some t →
  timers (schedule_verification w) !! j
  = Some (if decide (verification_timer (this w) = Some j)
          then Timer_cancel t else t).
Proof.
  intros Hj. pose proof (lookup_lt_Some _ _ _ Hj) as Hlt.
  unfold schedule_verification.
  destruct (verification_timer (this w)) as [i|];
    cbn [timers this with_this with_timers set_verification_timer].
  - rewrite lookup_app_l by (by rewrite length_alter).
    rewrite list_lookup_alter.
    case_decide as E; case_decide as E'; subst; rewrite Hj; simpl;
      congruence.
  - rewrite lookup_app_l by done. by rewrite decide_False.
Qed.

(** The operations that do not call [schedule_verification] leave the
    timers and the reference to the verification timer alone. *)
Lemma exec_same_timers (net : Transport) (op : Op) (w : World) :
  reschedules op = false → same_timers w (exec net op w).
Proof.
  destruct op; simpl; try discriminate; intros _.
  - unfold journal_entry. destruct (negb _); [by split|].
    unfold FC.process_event.
    by destruct (FC.should_handle_event entry) as [[]|].
  - unfold worker_iter. destruct (shutting_down _); [by split|].
    destruct (event_queue _) as [|[event|] q]; try (by split).
    match goal with
    | |- context [submit_journal_event net event ?w0] =>
        pose proof (submit_same_timers net event w0) as H1;
        destruct (submit_journal_event net event w0) as [ok w1]
    end.
    simpl in H1. destruct ok; simpl; destruct H1; by split.
  - unfold FC._worker_iter. destruct (fc_shutting_down _); [by split|].
    destruct (fc_queue _) as [|[[entry state]|] q]; try (by split).
    match goal with
    | |- context [FC._handle_event net entry state ?w0] =>
        pose proof (handle_event_same_timers net entry state w0) as H1
    end.
    simpl. destruct H1; by split.
  - by split.
  - by split.
  - unfold save_api_key. destruct (negb _); [by split|].
    match goal with
    | |- context [verify_api_key net api_key ?w0] =>
        pose proof (verify_same_timers net api_key w0) as H1;
        destruct (verify_api_key net api_key w0) as [ok w1]
    end.
    simpl in *.
    apply (same_timers_trans _ w1); [by destruct H1; split|].
    apply update_status_label_same_timers.
  - simpl.
    eapply same_timers_trans; [|apply update_status_label_same_timers].
    by split.
  - by split.
  - apply submit_same_timers.
  - apply handle_event_same_timers.
  - apply verify_same_timers.
  - apply update_status_label_same_timers.
Qed.

Lemma status_cancel_pending (t : Timer) :
  status t = Pending → status (Timer_cancel t) = Cancelled.
Proof. intros H. unfold Timer_cancel. by rewrite H. Qed.

(** A pending timer that fires: it is marked, the label is brought up
    to date, a successor is armed. *)
Lemma timer_fire_pending (net : Transport) (i : nat) (t : Timer)
  (w : World) :
  timers w !! i = Some t → status t = Pending →
  timer_fire net i w
  = schedule_verification
      (update_status_label net
         (with_timers (<[i := {| interval := interval t;
                                 daemon := daemon t;
                                 status := Fired |}]>) w)).
Proof. intros Hi Hp. unfold timer_fire. by rewrite Hi, Hp. Qed.

(** C9, amended. [plugin_stop] leaves the timers and the reference to
    the verification timer as they are: a timer that was pending stays
    pending.  When its interval has passed after the stop it fires: it is
    marked as fired, a successor is armed, and one more verification is
    sent when the status label exists and a key is configured, none
    otherwise.  A pending timer is cancelled by [schedule_verification]
    only, called alone, by [plugin_app] or by a timer that fires, and
    then it is the timer that [verification_timer] refers to; no other
    operation changes a timer.  [schedule_verification] arms a new daemon
    timer of [CHECK_INTERVAL]. *)
Theorem stop_keeps_timers (net : Transport) (w : World) :
  timers (plugin_stop w) = timers w
  ∧ verification_timer (this (plugin_stop w)) = verification_timer (this w)
  ∧ (∀ i t, verification_timer (this w) = Some i →
       (i < length (timers w))%nat →
       timers (schedule_verification w) !! i = Some t →
       status t ≠ Pending)
  ∧ timers (schedule_verification w) !! length (timers w)
    = Some {| interval := CHECK_INTERVAL; daemon := true;
              status := Pending |}
  ∧ verification_timer (this (schedule_verification w))
    = Some (length (timers w))
  ∧ (∀ i t, timers w !! i = Some t → status t = Pending →
       status <$> timers (timer_fire net i (plugin_stop w)) !! i
       = Some Fired
       ∧ length (timers (timer_fire net i (plugin_stop w)))
         = S (length (timers w))
       ∧ timers (timer_fire net i (plugin_stop w)) !! length (timers w)
         = Some {| interval := CHECK_INTERVAL; daemon := true;
                   status := Pending |}
       ∧ (is_Some (status_label (this w)) →
          str_truthy (get_str (config w) "edsts_api_key") = true →
          trace (timer_fire net i (plugin_stop w))
          = trace w
            ++ [ESend (verify_call
                         (default ""
                            (get_str (config w) "edsts_api_key")))])
       ∧ (status_label (this w) = None
          ∨ str_truthy (get_str (config w) "edsts_api_key") = false →
          trace (timer_fire net i (plugin_stop w)) = trace w))
  ∧ (∀ op j t, timers w !! j = Some t → status t = Pending →
       timers (exec net op w) !! j = Some t
       ∨ (reschedules op = true
          ∧ verification_timer (this w) = Some j
          ∧ status <$> timers (exec net op w) !! j = Some Cancelled)
       ∨ (op = OTimerFire j
          ∧ status <$> timers (exec net op w) !! j = Some Fired)).
Proof.
  split; [reflexivity|]. split; [reflexivity|].
  split; [|split; [|split; [|split]]].
  - intros i t Hv Hi Ht.
    destruct (timers w !! i) as [t0|] eqn:E.
    2:{ apply lookup_ge_None in E. lia. }
    rewrite (schedule_verification_lookup w i t0 E) in Ht.
    rewrite decide_True in Ht by done. injection Ht as <-.
    unfold Timer_cancel. destruct (status t0) eqn:E0; simpl; [done|..];
      by rewrite E0.
  - apply schedule_verification_arms.
  - apply schedule_verification_arms.
  - intros i t Hi Hp.
    set (ws := plugin_stop w).
    assert (His : timers ws !! i = Some t) by exact Hi.
    pose proof (lookup_lt_Some _ _ _ Hi) as Hlt.
    rewrite (timer_fire_pending net i t ws His Hp).
    set (fired := {| interval := interval t; daemon := daemon t;
                     status := Fired |}).
    set (w0 := with_timers (<[i := fired]>) ws).
    destruct (update_status_label_same_timers net w0) as [Ht Hv].
    destruct (update_status_label_effect net w0) as (Hnone & Hk1 & Hk0).
    set (w1 := update_status_label net w0) in *.
    assert (Hi1 : timers w1 !! i = Some fired).
    { rewrite Ht. unfold w0. cbn [timers with_timers].
      by apply list_lookup_insert_eq. }
    assert (Hlen : length (timers w1) = length (timers w)).
    { rewrite Ht. unfold w0. cbn [timers with_timers].
      by rewrite length_insert. }
    destruct (schedule_verification_arms w1)
      as (H1 & H2 & _ & H4 & _).
    split; [|split; [|split; [|split]]].
    + rewrite (schedule_verification_lookup w1 i fired Hi1).
      by case_decide.
    + by rewrite H1, Hlen.
    + by rewrite <- Hlen.
    + intros Hl Hk. rewrite H4. by apply Hk1.
    + intros [Hl | Hk]; rewrite H4.
      * by rewrite Hnone.
      * destruct (status_label (this w)) as [l|] eqn:El.
        -- destruct Hk0 as (_ & E & _); [by exists l|done|done].
        -- by rewrite Hnone.
  - intros op j t Hj Hp.
    destruct (reschedules op) eqn:Hop.
    2:{ left. destruct (exec_same_timers net op w Hop) as [E _].
        by rewrite E. }
    assert (Hsched : ∀ w', timers w' !! j = Some t →
              verification_timer (this w') = verification_timer (this w) →
              timers (schedule_verification w') !! j = Some t
              ∨ (verification_timer (this w) = Some j
                 ∧ status <$> timers (schedule_verification w') !! j
                   = Some Cancelled)).
    { intros w' Hj' Hv'. rewrite (schedule_verification_lookup w' j t Hj').
      rewrite Hv'. case_decide; [right|by left].
      split; [done|]. simpl. by rewrite status_cancel_pending. }
    destruct op; try discriminate Hop; simpl.
    + unfold timer_fire.
      destruct (timers w !! i) as [ti|] eqn:Hi; [|by left].
      destruct (status ti) eqn:Hpi; try (by left).
      unfold periodic_check.
      set (fired := {| interval := interval ti; daemon := daemon ti;
                       status := Fired |}).
      set (w0 := with_timers (<[i := fired]>) w).
      destruct (update_status_label_same_timers net w0) as [Ht Hv].
      set (w1 := update_status_label net w0) in *.
      destruct (decide (i = j)) as [-> | Hne].
      * right. right. split; [done|].
        assert (Hj1 : timers w1 !! j = Some fired).
        { rewrite Ht. unfold w0. cbn [timers with_timers].
          apply list_lookup_insert_eq. by apply lookup_lt_Some in Hj. }
        rewrite (schedule_verification_lookup w1 j fired Hj1).
        by case_decide.
      * assert (Hj1 : timers w1 !! j = Some t).
        { rewrite Ht. unfold w0. cbn [timers with_timers].
          by rewrite list_lookup_insert_ne. }
        destruct (Hsched w1 Hj1 Hv) as [H | H]; [by left|].
        right. left. by split.
    + unfold plugin_app.
      set (w0 := with_this (set_status_label (Some DISCONNECTED_TEXT)) w).
      destruct (update_status_label_same_timers net w0) as [Ht Hv].
      set (w1 := update_status_label net w0) in *.
      assert (Hj1 : timers w1 !! j = Some t) by (by rewrite Ht).
      destruct (Hsched w1 Hj1 Hv) as [H | H]; [by left|].
      right. left. by split.
    + destruct (Hsched w Hj eq_refl) as [H | H]; [by left|].
      right. left. by split.
Qed.
